(** * DOM analyzer: the statistics-extraction engine

    A shallow embedding of the metric analyzers of [core_analyzer.py]
    ([CoreDOMAnalyzer]) and [comprehensive_analyzer.py]
    ([ComprehensiveDOMAnalyzer]), and of the aggregators that merge their
    results, together with the properties the specification states about
    them.

    Conventions of the embedding:
    - a Python [str] is a [string]; [dict]s with string keys that are only
      looked up are [gmap string _]; [dict]s whose insertion order or whose
      key count is observed are association lists in insertion order;
    - a Python [set] of strings is a [gset string];
    - Python [int] is [Z]; Python [float] is a primitive binary64 [float];
    - a parsed document (a BeautifulSoup tree) is a [node];
    - code that can raise runs in the [result] monad. *)

From Stdlib Require Import ZArith String Ascii List Floats Uint63 Lia.
From stdpp Require Import gmap strings list.

Local Open Scope Z_scope.

#[local] Set Warnings "-clear-no-such-hyp,-register-all".

(** ** Python exceptions *)

Inductive exn :=
| ValueError
| TypeError
| KeyError
| JSONDecodeError
| RecursionError.

Global Instance exn_eq_dec : EqDecision exn.
Proof. solve_decision. Defined.

Inductive result (A : Type) :=
| Ok (a : A)
| Raise (e : exn).
Arguments Ok {A} a.
Arguments Raise {A} e.

Global Instance result_ret : MRet result := fun A a => Ok a.

Global Instance result_bind : MBind result := fun A B k m =>
  match m with
  | Ok a => k a
  | Raise e => Raise e
  end.

(** [try: body except classes: handler].  The classes are compared by name:
    of the exceptions above only [JSONDecodeError] has a base class among
    them ([ValueError]), and no block that names [ValueError] runs the
    decoder. *)
Definition try_except {A} (body : result A) (classes : list exn)
    (handler : result A) : result A :=
  match body with
  | Ok a => Ok a
  | Raise e => if bool_decide (e ∈ classes) then handler else Raise e
  end.

(** [for x in l: s = body(s, x)], stopping at the first exception *)
Fixpoint for_each {A S} (l : list A) (body : S -> A -> result S) (s : S)
    : result S :=
  match l with
  | [] => Ok s
  | x :: l' => s' ← body s x; for_each l' body s'
  end.

(** [sum(1 for x in l if p x)] *)
Definition count_if {A} (p : A -> bool) (l : list A) : Z :=
  Z.of_nat (length (List.filter p l)).

(** ** Python string operations *)

Module Py.

(** [s.startswith(p)] *)
Definition startswith (s p : string) : bool := String.prefix p s.

(** [sub in s] on strings *)
Fixpoint contains (sub s : string) : bool :=
  if String.prefix sub s then true
  else match s with
       | EmptyString => false
       | String _ s' => contains sub s'
       end.

(** [str.isspace] on one character (code points below 256) *)
Definition isspace (c : ascii) : bool :=
  let n := N_of_ascii c in
  ((9 <=? n) && (n <=? 13) || (28 <=? n) && (n <=? 32)
   || (n =? 133) || (n =? 160))%N.

Fixpoint lstrip (s : string) : string :=
  match s with
  | EmptyString => EmptyString
  | String c s' => if isspace c then lstrip s' else s
  end.

Definition rstrip (s : string) : string :=
  String.rev (lstrip (String.rev s)).

(** [s.strip()] *)
Definition strip (s : string) : string := rstrip (lstrip s).

(** [s[:n]] *)
Fixpoint take (n : nat) (s : string) : string :=
  match n, s with
  | S n', String c s' => String c (take n' s')
  | _, _ => EmptyString
  end.

(** [len(s)] *)
Definition len (s : string) : Z := Z.of_nat (String.length s).

(** [s.count(c)] for a one-character needle *)
Fixpoint count_char (c : ascii) (s : string) : nat :=
  match s with
  | EmptyString => 0%nat
  | String a s' =>
      ((if bool_decide (a = c) then 1 else 0) + count_char c s')%nat
  end.

Definition digit (c : ascii) : option Z :=
  let n := Z.of_N (N_of_ascii c) in
  if (48 <=? n) && (n <=? 57) then Some (n - 48) else None.

(** Decimal digits, single underscores allowed between two digits. *)
Fixpoint parse_digits (s : string) (acc : Z) (after_digit : bool)
    : option Z :=
  match s with
  | EmptyString => if after_digit then Some acc else None
  | String c s' =>
      match digit c with
      | Some d => parse_digits s' (10 * acc + d) true
      | None =>
          if bool_decide (c = "_"%char) && after_digit
          then parse_digits s' acc false
          else None
      end
  end.

(** The whitespace [int] skips around the number: ASCII whitespace and,
    beyond ASCII, the Unicode spaces (U+0085 and U+00A0 below 256).
    Unlike [str.isspace] it does not take U+001C..U+001F. *)
Definition int_space (c : ascii) : bool :=
  let n := N_of_ascii c in
  ((9 <=? n) && (n <=? 13) || (n =? 32) || (n =? 133) || (n =? 160))%N.

Fixpoint skip (p : ascii -> bool) (s : string) : string :=
  match s with
  | EmptyString => EmptyString
  | String c s' => if p c then skip p s' else s
  end.

Definition trim (p : ascii -> bool) (s : string) : string :=
  String.rev (skip p (String.rev (skip p s))).

(** [sys.get_int_max_str_digits()] as the interpreter starts (CPython
    3.11): [int] refuses a decimal string of more digits. *)
Definition int_max_str_digits : nat := 4300.

Fixpoint count_digits (s : string) : nat :=
  match s with
  | EmptyString => 0%nat
  | String c s' =>
      ((match digit c with Some _ => 1 | None => 0 end)
       + count_digits s')%nat
  end.

(** [int(s)] on a string: surrounding whitespace, an optional sign and
    at most [int_max_str_digits] decimal digits; anything else raises
    [ValueError].  Digits outside ASCII are not modelled. *)
Definition int (s : string) : result Z :=
  let t := trim int_space s in
  let digits :=
    match t with
    | String "+" r => r
    | String "-" r => r
    | _ => t
    end in
  let parsed :=
    match t with
    | String "+" r => parse_digits r 0 false
    | String "-" r => Z.opp <$> parse_digits r 0 false
    | _ => parse_digits t 0 false
    end in
  match parsed with
  | Some z =>
      if bool_decide (count_digits digits <= int_max_str_digits)%nat
      then Ok z
      else Raise ValueError
  | None => Raise ValueError
  end.

(** [max(l)] *)
Definition max (l : list Z) : result Z :=
  match l with
  | [] => Raise ValueError
  | x :: l' => Ok (fold_left Z.max l' x)
  end.

(** [float(n)] for a small non-negative integer *)
Definition float_of_Z (z : Z) : float := PrimFloat.of_uint63 (Uint63.of_Z z).

(** [s.split()]: the maximal runs of characters that are not whitespace.
    [word] holds the current run, last character first. *)
Fixpoint split_from (word : string) (s : string) : list string :=
  match s with
  | EmptyString =>
      match word with
      | EmptyString => []
      | _ => [String.rev word]
      end
  | String c s' =>
      if isspace c
      then match word with
           | EmptyString => split_from EmptyString s'
           | _ => String.rev word :: split_from EmptyString s'
           end
      else split_from (String c word) s'
  end.

Definition split (s : string) : list string := split_from EmptyString s.

(** [x or d] on an optional string: [d] when [x] is [None] or empty. *)
Definition or_else (x : option string) (d : string) : string :=
  match x with
  | Some (String c s') => String c s'
  | _ => d
  end.

(** Truthiness of an optional string. *)
Definition truthy (x : option string) : bool :=
  match x with
  | Some (String _ _) => true
  | _ => false
  end.

End Py.

(** ** The parsed document

    A BeautifulSoup tree: text nodes and tags.  A tag carries its name, its
    attribute dictionary and its contents in document order.  The
    [BeautifulSoup] object itself is the tag at the root. *)

Local Unset Elimination Schemes.
Inductive node :=
| Text (s : string)
| Tag (name : string) (attrs : gmap string string) (contents : list node).
Local Set Elimination Schemes.

Definition is_tag (n : node) : bool :=
  match n with Tag _ _ _ => true | Text _ => false end.

Definition tag_name (n : node) : string :=
  match n with Tag name _ _ => name | Text _ => "" end.

(** [element.get(key)]: [None] when the attribute is absent. *)
Definition get (n : node) (key : string) : option string :=
  match n with
  | Tag _ attrs _ => attrs !! key
  | Text _ => None
  end.

(** [element.find_all()] (alias [findChildren]): every tag below [n], in
    document order. *)
Fixpoint find_all (n : node) : list node :=
  match n with
  | Text _ => []
  | Tag _ _ contents =>
      flat_map (fun c => if is_tag c then c :: find_all c else []) contents
  end.

(** [soup.find_all(name)] *)
Definition find_all_named (soup : node) (name : string) : list node :=
  filter (fun e => tag_name e = name) (find_all soup).

(** [soup.find_all(attrs={key: True})] *)
Definition find_all_with_attr (soup : node) (key : string) : list node :=
  filter (fun e => is_Some (get e key)) (find_all soup).

(** [soup.html]: the first tag named [html], if any. *)
Definition soup_html (soup : node) : option node :=
  head (find_all_named soup "html").

(** ** Metric results

    The nested mappings the analyzers return, as Python values.  A [dict] is
    kept as the list of its items in insertion order; a [set] counts as one
    value for the aggregator, whatever it holds. *)

Local Unset Elimination Schemes.
Inductive value :=
| VNone
| VBool (b : bool)
| VInt (z : Z)
| VFloat (f : float)
| VStr (s : string)
| VList (items : list value)
| VDict (items : list (string * value))
| VSet (members : list string).
Local Set Elimination Schemes.

(** * CoreDOMAnalyzer *)

Module Core.

(** *** analyze_security_headers *)

(** The [important_headers] table, in insertion order.  Only the [score]
    of each entry reaches the result; the [present] and [value] fields
    the loop writes into the table are local to the call. *)
Definition important_headers : list (string * Z) :=
  [ ("Strict-Transport-Security", 10);
    ("X-Frame-Options", 10);
    ("X-Content-Type-Options", 10);
    ("Content-Security-Policy", 15);
    ("X-XSS-Protection", 5);
    ("Referrer-Policy", 5);
    ("Permissions-Policy", 10);
    ("Cross-Origin-Embedder-Policy", 5);
    ("Cross-Origin-Opener-Policy", 5);
    ("Cross-Origin-Resource-Policy", 5) ].

(** [sum(h['score'] for h in table.values())] *)
Definition sum_scores (table : list (string * Z)) : Z :=
  foldr (fun h acc => h.2 + acc) 0 table.

Definition total_possible_score : Z := sum_scores important_headers.

(** One iteration of [for header, info in important_headers.items()]:
    the state is [actual_score] and [security['headers_present']]. *)
Definition scan_header (response_headers : gmap string string)
    (st : Z * list (string * string)) (entry : string * Z)
    : Z * list (string * string) :=
  match response_headers !! entry.1 with
  | Some v => (st.1 + entry.2, st.2 ++ [(entry.1, Py.take 200 v)])
  | None => st
  end.

Definition scan_headers (table : list (string * Z))
    (response_headers : gmap string string) : Z * list (string * string) :=
  fold_left (scan_header response_headers) table (0, []).

Record csp_analysis := {
  directives : Z;
  unsafe_inline : bool;
  unsafe_eval : bool;
  default_src : bool;
  script_src : bool;
  style_src : bool;
  report_uri : bool
}.

Definition analyze_csp (csp : string) : csp_analysis :=
  {| directives := Z.of_nat (S (Py.count_char ";" csp));
     unsafe_inline := Py.contains "unsafe-inline" csp;
     unsafe_eval := Py.contains "unsafe-eval" csp;
     default_src := Py.contains "default-src" csp;
     script_src := Py.contains "script-src" csp;
     style_src := Py.contains "style-src" csp;
     report_uri := Py.contains "report-uri" csp
                   || Py.contains "report-to" csp |}.

Record cookie_analysis := {
  secure : bool;
  httponly : bool;
  samesite : bool;
  samesite_strict : bool;
  samesite_lax : bool
}.

Definition analyze_cookies (cookies : string) : cookie_analysis :=
  {| secure := Py.contains "Secure" cookies;
     httponly := Py.contains "HttpOnly" cookies;
     samesite := Py.contains "SameSite" cookies;
     samesite_strict := Py.contains "SameSite=Strict" cookies;
     samesite_lax := Py.contains "SameSite=Lax" cookies |}.

(** The result: [csp] and [cookies] are [None] for [{'present': False}];
    the [https] and [permissions] entries stay empty dicts. *)
Record security := {
  headers_present : list (string * string);
  cookies : option cookie_analysis;
  csp : option csp_analysis;
  security_score : float
}.

(** [(actual_score / total_possible_score) * 100 if total_possible_score > 0
    else 0] *)
Definition score_of (actual_score total : Z) : float :=
  if 0 <? total
  then (Py.float_of_Z actual_score / Py.float_of_Z total * 100)%float
  else 0%float.

Definition analyze_security_headers (response_headers : gmap string string)
    : security :=
  let '(actual_score, present) :=
    scan_headers important_headers response_headers in
  {| headers_present := present;
     cookies := analyze_cookies <$> response_headers !! "Set-Cookie";
     csp := analyze_csp <$> response_headers !! "Content-Security-Policy";
     security_score := score_of actual_score total_possible_score |}.

(** *** calculate_dom_complexity *)

(** The nested [get_tree_depth].  [findChildren] yields every tag below
    [element], not only its direct children, and the function calls
    itself on each of them.  [fuel] is the depth of recursion the
    interpreter allows; running out of it is [RecursionError]. *)
Fixpoint get_tree_depth (fuel : nat) (element : node) (current_depth : Z)
    : result Z :=
  match fuel with
  | O => Raise RecursionError
  | S fuel' =>
      match find_all element with
      | [] => Ok current_depth
      | children =>
          depths ← mapM (fun child =>
                      get_tree_depth fuel' child (current_depth + 1))
                    children;
          Py.max depths
      end
  end.

(** [statistics.mean] of a non-empty list of ints: the exact quotient when
    it is an integer, the nearest float otherwise (sums below 2^53). *)
Definition mean (l : list Z) : value :=
  let total := fold_left Z.add l 0 in
  let n := Z.of_nat (length l) in
  if total mod n =? 0 then VInt (total / n)
  else VFloat (Py.float_of_Z total / Py.float_of_Z n)%float.

Record dom_complexity := {
  total_elements : Z;
  max_depth : Z;
  average_children_per_node : value;
  leaf_nodes : Z;
  branch_nodes : Z;
  complexity_score : Z
}.

Definition has_children (e : node) : bool :=
  match find_all e with [] => false | _ => true end.

Definition calculate_dom_complexity (fuel : nat) (soup : node)
    : result dom_complexity :=
  let all_elements := find_all soup in
  let n := Z.of_nat (length all_elements) in
  depth ← match soup_html soup with
          | Some html => get_tree_depth fuel html 0
          | None => Ok 0
          end;
  let average :=
    match all_elements with
    | [] => VInt 0
    | _ => mean (map (fun e => Z.of_nat (length (find_all e))) all_elements)
    end in
  factor ← match soup_html soup with
           | Some html => get_tree_depth fuel html 0
           | None => Ok 1
           end;
  Ok {| total_elements := n;
        max_depth := depth;
        average_children_per_node := average;
        leaf_nodes := count_if (fun e => negb (has_children e)) all_elements;
        branch_nodes := count_if has_children all_elements;
        complexity_score := n * factor |}.

(** *** analyze_accessibility_advanced: images and alt text *)

Record alternative_text := {
  total_images : Z;
  with_alt : Z;
  empty_alt : Z;
  missing_alt : Z;
  decorative : Z
}.

Definition is_none {A} (o : option A) : bool :=
  match o with None => true | Some _ => false end.

Definition accessibility_alternative_text (soup : node) : alternative_text :=
  let images := find_all_named soup "img" in
  {| total_images := Z.of_nat (length images);
     with_alt := count_if (fun img => negb (is_none (get img "alt"))) images;
     empty_alt :=
       count_if (fun img => bool_decide (get img "alt" = Some "")) images;
     missing_alt := count_if (fun img => is_none (get img "alt")) images;
     decorative :=
       count_if (fun img => bool_decide (get img "role" = Some "presentation"))
         images |}.

(** *** analyze_accessibility_advanced: keyboard navigation hints *)

(** [int(elem.get('tabindex', 0))] *)
Definition int_tabindex (elem : node) : result Z :=
  match get elem "tabindex" with
  | Some v => Py.int v
  | None => Ok 0
  end.

(** The body of the loop, with its [try ... except (ValueError, TypeError):
    pass]. *)
Definition positive_tabindex_step (positive_tabindex : Z) (elem : node)
    : result Z :=
  try_except
    (t ← int_tabindex elem;
     if 0 <? t then Ok (positive_tabindex + 1) else Ok positive_tabindex)
    [ValueError; TypeError]
    (Ok positive_tabindex).

Record keyboard_nav := {
  tabindex_elements : Z;
  positive_tabindex : Z;
  accesskey_elements : Z
}.

Definition accessibility_keyboard_nav (soup : node) : result keyboard_nav :=
  let with_tabindex := find_all_with_attr soup "tabindex" in
  positive ← for_each with_tabindex positive_tabindex_step 0;
  Ok {| tabindex_elements := Z.of_nat (length with_tabindex);
        positive_tabindex := positive;
        accesskey_elements :=
          Z.of_nat (length (find_all_with_attr soup "accesskey")) |}.

(** *** analyze_seo_signals: Schema.org *)

(** [element.string]: the single string below the element, if there is
    exactly one. *)
Fixpoint string_of (n : node) : option string :=
  match n with
  | Text s => Some s
  | Tag _ _ [c] => string_of c
  | Tag _ _ _ => None
  end.

(** [key in data] *)
Definition py_in (key : string) (data : value) : result bool :=
  match data with
  | VDict items => Ok (bool_decide (key ∈ items.*1))
  | VList items =>
      Ok (existsb (fun x => match x with
                            | VStr s => bool_decide (s = key)
                            | _ => false
                            end) items)
  | VStr s => Ok (Py.contains key s)
  | VSet members => Ok (bool_decide (key ∈ members))
  | VNone | VBool _ | VInt _ | VFloat _ => Raise TypeError
  end.

Fixpoint assoc (key : string) (items : list (string * value))
    : option value :=
  match items with
  | [] => None
  | (k, v) :: items' => if bool_decide (k = key) then Some v else assoc key items'
  end.

(** [data[key]] with a string key *)
Definition getitem (data : value) (key : string) : result value :=
  match data with
  | VDict items =>
      match assoc key items with
      | Some v => Ok v
      | None => Raise KeyError
      end
  | _ => Raise TypeError
  end.

Section SchemaOrg.

(** [json.loads] on a string: the decoded value, or the exception it
    raises.  For a text that is not JSON that is [JSONDecodeError]; the
    decoder also raises [RecursionError] on a text nested deeper than
    the interpreter's recursion limit, and a plain [ValueError] on an
    integer literal of more digits than [int] accepts. *)
Variable json_loads : string -> result value.

(** [soup.find_all('script', type='application/ld+json')] *)
Definition json_ld_scripts (soup : node) : list node :=
  List.filter
    (fun e => bool_decide (get e "type" = Some "application/ld+json"))
    (find_all_named soup "script").

(** The body of the loop, with its [try ... except
    (json.JSONDecodeError, TypeError): pass]. *)
Definition schema_types_step (schema_types : list value) (script : node)
    : result (list value) :=
  try_except
    (match string_of script with
     | Some (String c s') =>
         data ← json_loads (String c s');
         found ← py_in "@type" data;
         if found : bool
         then ty ← getitem data "@type"; Ok (schema_types ++ [ty])
         else Ok schema_types
     | _ => Ok schema_types
     end)
    [JSONDecodeError; TypeError]
    (Ok schema_types).

Record schema_org := {
  json_ld_count : Z;
  types : list value
}.

Definition seo_schema_org (soup : node) : result schema_org :=
  let scripts := json_ld_scripts soup in
  schema_types ← for_each scripts schema_types_step [];
  Ok {| json_ld_count := Z.of_nat (length scripts);
        types := schema_types |}.

End SchemaOrg.

(** *** count_total_statistics *)

Fixpoint count_total_statistics (obj : value) (count : Z) : Z :=
  match obj with
  | VDict items =>
      (fix over_values (l : list (string * value)) (count : Z) : Z :=
         match l with
         | [] => count
         | kv :: l' => over_values l' (count_total_statistics kv.2 count)
         end) items (count + Z.of_nat (length items))
  | VList items =>
      (fix over_items (l : list value) (count : Z) : Z :=
         match l with
         | [] => count
         | item :: l' => over_items l' (count_total_statistics item count)
         end) items (count + Z.of_nat (length items))
  | _ => count + 1
  end.

(** *** generate_comprehensive_analysis *)

Definition csp_value (c : option csp_analysis) : value :=
  match c with
  | Some a =>
      VDict [ ("present", VBool true);
              ("directives", VInt (directives a));
              ("unsafe_inline", VBool (unsafe_inline a));
              ("unsafe_eval", VBool (unsafe_eval a));
              ("default_src", VBool (default_src a));
              ("script_src", VBool (script_src a));
              ("style_src", VBool (style_src a));
              ("report_uri", VBool (report_uri a)) ]
  | None => VDict [ ("present", VBool false) ]
  end.

Definition cookies_value (c : option cookie_analysis) : value :=
  match c with
  | Some a =>
      VDict [ ("present", VBool true);
              ("secure", VBool (secure a));
              ("httponly", VBool (httponly a));
              ("samesite", VBool (samesite a));
              ("samesite_strict", VBool (samesite_strict a));
              ("samesite_lax", VBool (samesite_lax a)) ]
  | None => VDict [ ("present", VBool false) ]
  end.

Definition security_value (sec : security) : value :=
  VDict [ ("headers_present",
           VDict (map (fun kv => (kv.1, VStr kv.2)) (headers_present sec)));
          ("https", VDict []);
          ("cookies", cookies_value (cookies sec));
          ("csp", csp_value (csp sec));
          ("permissions", VDict []);
          ("security_score", VFloat (security_score sec)) ].

Definition dom_complexity_value (d : dom_complexity) : value :=
  VDict [ ("total_elements", VInt (total_elements d));
          ("max_depth", VInt (max_depth d));
          ("average_children_per_node", average_children_per_node d);
          ("leaf_nodes", VInt (leaf_nodes d));
          ("branch_nodes", VInt (branch_nodes d));
          ("complexity_score", VInt (complexity_score d)) ].

(** What [fetch_single_user_agent] returns on success. *)
Record response_data := {
  status_code : Z;
  content_length : Z;
  headers : gmap string string;
  response_time : float;
  html : string;
  soup : node
}.

Section Aggregator.

(** [self.url] *)
Variable url : string.
(** The page fetcher: [None] on a timeout, a network error or a status
    for which [raise_for_status] raises. *)
Variable fetch_single_user_agent : string -> option response_data.
(** The two readings of [time.time()] and the one of [time.strftime]. *)
Variables start_time end_time : float.
Variable timestamp : string.
(** The recursion the interpreter allows to [get_tree_depth]. *)
Variable fuel : nat.
(** The analyzers that are not embedded here. *)
Variables analyze_css_selectors analyze_javascript_complexity
  analyze_seo_signals analyze_accessibility_advanced
  : node -> result value.
Variable analyze_performance_metrics
  : node -> response_data -> result value.

(** [k.startswith(('url', 'user_agent', 'meta_'))] *)
Definition is_bookkeeping_key (k : string) : bool :=
  existsb (Py.startswith k) ["url"; "user_agent"; "meta_"].

Definition meta_statistics (all_stats : list (string * value)) : value :=
  VDict [ ("total_data_points",
           VInt (count_total_statistics (VDict all_stats) 0));
          ("analysis_categories",
           VInt (count_if (fun k => negb (is_bookkeeping_key k))
                   all_stats.*1));
          ("processing_time", VFloat (end_time - start_time)%float);
          ("timestamp", VStr timestamp) ].

Definition generate_comprehensive_analysis (user_agent : string)
    : result value :=
  match fetch_single_user_agent user_agent with
  | None =>
      Ok (VDict [ ("error",
                   VStr ("Failed to fetch page with " +:+ user_agent));
                  ("url", VStr url);
                  ("timestamp", VStr timestamp) ])
  | Some response =>
      dom ← calculate_dom_complexity fuel (soup response);
      css ← analyze_css_selectors (soup response);
      js ← analyze_javascript_complexity (soup response);
      perf ← analyze_performance_metrics (soup response) response;
      seo ← analyze_seo_signals (soup response);
      a11y ← analyze_accessibility_advanced (soup response);
      let all_stats :=
        [ ("url", VStr url);
          ("user_agent_used", VStr user_agent);
          ("fetch_info",
           VDict [ ("status_code", VInt (status_code response));
                   ("content_length", VInt (content_length response));
                   ("response_time", VFloat (response_time response)) ]);
          ("dom_complexity", dom_complexity_value dom);
          ("css_analysis", css);
          ("javascript_analysis", js);
          ("performance_metrics", perf);
          ("seo_signals", seo);
          ("accessibility", a11y);
          ("security", security_value
                         (analyze_security_headers (headers response))) ]
      in
      Ok (VDict (all_stats ++ [("meta_statistics", meta_statistics all_stats)]))
  end.

End Aggregator.

(** *** analyze_css_selectors

    The [class] attribute is the one attribute here that the parser hands
    over as a list: the tokens of its value between whitespace.  The
    [most_used_style_properties] histogram, which comes from a regular
    expression over the inline styles, is not embedded. *)

(** [elem.get('class', [])] *)
Definition classes_of (elem : node) : list string :=
  match get elem "class" with
  | Some v => Py.split v
  | None => []
  end.

Record bem_usage := {
  blocks : Z;
  elements : Z;
  modifiers : Z
}.

(** [# BEM detection] *)
Definition bem_step (b : bem_usage) (cls : string) : bem_usage :=
  if Py.contains "__" cls
  then {| elements := elements b + 1;
          blocks := blocks b; modifiers := modifiers b |}
  else if Py.contains "--" cls
  then {| modifiers := modifiers b + 1;
          blocks := blocks b; elements := elements b |}
  else if Py.contains "-" cls && negb (Py.contains "__" cls)
          && negb (Py.contains "--" cls)
  then {| blocks := blocks b + 1;
          elements := elements b; modifiers := modifiers b |}
  else b.

(** [len(cls) <= 5 or cls in ['p-1', 'm-2', 'flex', 'grid', 'hidden']] *)
Definition is_atomic (cls : string) : bool :=
  (Py.len cls <=? 5)
  || bool_decide (cls ∈ ["p-1"; "m-2"; "flex"; "grid"; "hidden"]).

(** The state of the class loop: [class_selectors], [bem_usage] and
    [atomic_css_patterns]. *)
Record class_stats := {
  class_selectors : gset string;
  bem : bem_usage;
  atomic_css_patterns : Z
}.

(** One iteration of [for cls in elem.get('class', [])]. *)
Definition class_step (st : class_stats) (cls : string) : class_stats :=
  {| class_selectors := {[cls]} ∪ class_selectors st;
     bem := bem_step (bem st) cls;
     atomic_css_patterns :=
       if is_atomic cls then atomic_css_patterns st + 1
       else atomic_css_patterns st |}.

Record css_selectors := {
  unique_ids : Z;
  unique_classes : Z;
  bem_score : Z;
  atomic_css_score : Z;
  inline_styles : Z
}.

(** [stats['id_selectors']] after the loop over [find_all(id=True)] *)
Definition id_selectors (soup : node) : gset string :=
  list_to_set (omap (fun e => get e "id") (find_all soup)).

(** The class tokens the loop visits, in order. *)
Definition class_tokens (soup : node) : list string :=
  flat_map classes_of (find_all_with_attr soup "class").

Definition analyze_css_selectors (soup : node) : css_selectors :=
  let st :=
    fold_left class_step (class_tokens soup)
      {| class_selectors := ∅;
         bem := {| blocks := 0; elements := 0; modifiers := 0 |};
         atomic_css_patterns := 0 |} in
  {| unique_ids := Z.of_nat (size (id_selectors soup));
     unique_classes := Z.of_nat (size (class_selectors st));
     bem_score := blocks (bem st) + elements (bem st) + modifiers (bem st);
     atomic_css_score := atomic_css_patterns st;
     inline_styles :=
       Z.of_nat (length (find_all_with_attr soup "style")) |}.

(** *** analyze_javascript_complexity

    The counts and the framework detection.  The tallies that come from
    regular expressions ([patterns], [promise_usage],
    [async_await_usage], [ajax_patterns], [event_listeners]) are not
    embedded. *)

Definition framework_signatures : list (string * list string) :=
  [ ("react", ["React."; "ReactDOM"; "__REACT_DEVTOOLS_GLOBAL_HOOK__"]);
    ("angular", ["ng-"; "angular."; "__ANGULAR__"]);
    ("vue", ["Vue."; "v-for"; "v-if"; "__VUE__"]);
    ("jquery", ["jQuery"; "$("; "$.ajax"]);
    ("bootstrap", ["bootstrap."; "modal"; "carousel"; "tooltip"]);
    ("lodash", ["_."; "lodash"]);
    ("d3", ["d3."; "d3-"]);
    ("three", ["THREE."; "WebGLRenderer"]) ].

Record javascript := {
  total_scripts : Z;
  inline_scripts : Z;
  external_scripts : Z;
  total_js_size : Z;
  minified_scripts : Z;
  async_scripts : Z;
  defer_scripts : Z;
  module_scripts : Z;
  nomodule_scripts : Z;
  frameworks_detected : list string
}.

(** [any(sig in content for sig in signatures)] *)
Definition has_signature (content : string) (signatures : list string)
    : bool :=
  existsb (fun sig => Py.contains sig content) signatures.

(** One iteration of [for framework, signatures in
    framework_signatures.items()]. *)
Definition detect_step (content : string) (detected : list string)
    (entry : string * list string) : list string :=
  if has_signature content entry.2
  then if bool_decide (entry.1 ∈ detected) then detected
       else detected ++ [entry.1]
  else detected.

(** [content and len(content.split('\n')) < 3 and len(content) > 500] *)
Definition is_minified (content : string) : bool :=
  match content with
  | EmptyString => false
  | _ =>
      (Z.of_nat (S (Py.count_char "010" content)) <? 3)
      && (500 <? Py.len content)
  end.

Definition bump (b : bool) (n : Z) : Z := if b then n + 1 else n.

(** One iteration of [for script in scripts]. *)
Definition script_step (st : javascript) (script : node) : javascript :=
  if Py.truthy (get script "src")
  then
    {| external_scripts := external_scripts st + 1;
       async_scripts :=
         bump (Py.truthy (get script "async")) (async_scripts st);
       defer_scripts :=
         bump (Py.truthy (get script "defer")) (defer_scripts st);
       module_scripts :=
         bump (bool_decide (get script "type" = Some "module"))
           (module_scripts st);
       nomodule_scripts :=
         bump (negb (is_none (get script "nomodule"))) (nomodule_scripts st);
       total_scripts := total_scripts st;
       inline_scripts := inline_scripts st;
       total_js_size := total_js_size st;
       minified_scripts := minified_scripts st;
       frameworks_detected := frameworks_detected st |}
  else
    let content := Py.or_else (string_of script) "" in
    {| inline_scripts := inline_scripts st + 1;
       total_js_size := total_js_size st + Py.len content;
       minified_scripts := bump (is_minified content) (minified_scripts st);
       frameworks_detected :=
         fold_left (detect_step content) framework_signatures
           (frameworks_detected st);
       total_scripts := total_scripts st;
       external_scripts := external_scripts st;
       async_scripts := async_scripts st;
       defer_scripts := defer_scripts st;
       module_scripts := module_scripts st;
       nomodule_scripts := nomodule_scripts st |}.

Definition analyze_javascript_complexity (soup : node) : javascript :=
  let scripts := find_all_named soup "script" in
  fold_left script_step scripts
    {| total_scripts := Z.of_nat (length scripts);
       inline_scripts := 0; external_scripts := 0; total_js_size := 0;
       minified_scripts := 0; async_scripts := 0; defer_scripts := 0;
       module_scripts := 0; nomodule_scripts := 0;
       frameworks_detected := [] |}.

(** *** analyze_performance_metrics: lazy loading, images, web vitals

    The resource hints and the font loading strategy, which read the
    list-valued [rel] attribute, are not embedded. *)

(** [soup.find_all([name, ...])] *)
Definition find_all_among (soup : node) (names : list string) : list node :=
  List.filter (fun e => bool_decide (tag_name e ∈ names)) (find_all soup).

(** The [if]/[elif] chain on the image source; [None] when no format
    matches. *)
Definition image_format (src : string) : option string :=
  if Py.contains ".webp" src then Some "webp"
  else if Py.contains ".avif" src then Some "avif"
  else if Py.contains ".jpg" src || Py.contains ".jpeg" src then Some "jpeg"
  else if Py.contains ".png" src then Some "png"
  else if Py.contains ".svg" src then Some "svg"
  else if Py.contains ".gif" src then Some "gif"
  else None.

(** [img.get('src') or img.get('srcset', '')] *)
Definition image_source (img : node) : string :=
  Py.or_else (get img "src") (default "" (get img "srcset")).

(** [image_formats[f] += 1] on a [Counter] *)
Definition count_format (formats : gmap string Z) (img : node)
    : gmap string Z :=
  match image_format (image_source img) with
  | Some f => <[f := default 0 (formats !! f) + 1]> formats
  | None => formats
  end.

Definition is_lazy (e : node) : bool :=
  bool_decide (get e "loading" = Some "lazy").

Record performance := {
  lazy_images : Z;
  lazy_iframes : Z;
  formats : gmap string Z;
  responsive_images : Z;
  srcset_usage : Z;
  service_worker : bool;
  lcp_candidates : Z;
  cls_risk_elements : Z;
  fid_interactive_elements : Z
}.

Definition analyze_performance_metrics (soup : node) : performance :=
  {| lazy_images := count_if is_lazy (find_all_named soup "img");
     lazy_iframes := count_if is_lazy (find_all_named soup "iframe");
     formats :=
       fold_left count_format (find_all_among soup ["img"; "source"]) ∅;
     responsive_images :=
       Z.of_nat (length (find_all_named soup "picture"));
     srcset_usage := Z.of_nat (length (find_all_with_attr soup "srcset"));
     service_worker :=
       existsb (fun script =>
                  let content := Py.or_else (string_of script) "" in
                  Py.contains "serviceWorker" content
                  || Py.contains "navigator.serviceWorker" content)
         (find_all_named soup "script");
     lcp_candidates :=
       Z.of_nat (length (find_all_among soup ["img"; "video"; "svg"]));
     cls_risk_elements :=
       count_if (fun e =>
                   Py.truthy (get e "style")
                   && Py.contains "position:absolute"
                        (default "" (get e "style")))
         (find_all soup);
     fid_interactive_elements :=
       Z.of_nat (length (find_all_among soup ["button"; "a"; "input"])) |}.

(** *** analyze_seo_signals: the title *)

Inductive sequence_error :=
| IndexError.

Record title_info := {
  title_text : string;
  title_length : Z;
  title_words : Z;
  title_optimal : bool;
  pipe_separated : bool;
  dash_separated : bool;
  brand_position : string
}.

Section Title.

(** [str.istitle] *)
Variable istitle : string -> bool.

(** [title_text.split()[-1]] *)
Definition last_word (text : string) : sequence_error + string :=
  match last (Py.split text) with
  | Some w => inr w
  | None => inl IndexError
  end.

(** ['end' if title_text and title_text.split()[-1].istitle() else
    'unknown'] *)
Definition brand_position_of (text : string)
    : sequence_error + string :=
  match text with
  | EmptyString => inr "unknown"
  | _ =>
      match last_word text with
      | inr w => inr (if istitle w then "end" else "unknown")
      | inl e => inl e
      end
  end.

(** The [# Title analysis] block: [None] for [{'exists': False}]. *)
Definition seo_title (soup : node)
    : sequence_error + option title_info :=
  match head (find_all_named soup "title") with
  | None => inr None
  | Some title =>
      let text := Py.or_else (string_of title) "" in
      match brand_position_of text with
      | inl e => inl e
      | inr brand =>
          inr (Some
                 {| title_text := text;
                    title_length := Py.len text;
                    title_words := Z.of_nat (length (Py.split text));
                    title_optimal :=
                      (30 <=? Py.len text) && (Py.len text <=? 60);
                    pipe_separated := Py.contains "|" text;
                    dash_separated := Py.contains "-" text;
                    brand_position := brand |})
      end
  end.

End Title.

End Core.

(** * ComprehensiveDOMAnalyzer

    The analyzers below are embedded without the hand-kept
    [statistics_count]: [_count_statistic] writes no field of the returned
    [analysis].  The counter is threaded through the aggregator, which is
    the one place that reads it. *)

Module Comprehensive.

(** [urlparse(url)], as far as the analyzers read it. *)
Record parsed_url := {
  scheme : string;
  netloc : string
}.

(** The fields of [self] the analyzers read.  [soup] is [None] until a
    page has been fetched. *)
Record analyzer := {
  url : string;
  parsed : parsed_url;
  soup : option node
}.

(** [d.setdefault(k, v)] used as [if k not in d: d[k] = v] *)
Definition init_key (k : string) (v : Z) (d : gmap string Z)
    : gmap string Z :=
  match d !! k with
  | Some _ => d
  | None => <[k := v]> d
  end.

(** [d[k] += 1] *)
Definition incr_key (k : string) (d : gmap string Z) : gmap string Z :=
  alter (fun n => n + 1) k d.

(** *** analyze_ids_comprehensive

    The id bookkeeping of the loop; the regex tallies of
    [id_format_analysis] and the summary [id_statistics] are computed from
    the same ids and are not embedded.  [unique_ids] is returned as
    [list(set)], in no specified order, and is kept as the set. *)

Record id_analysis := {
  id_usage : gmap string Z;
  duplicate_ids : gmap string Z;
  unique_ids : gset string;
  elements_with_ids : Z;
  elements_without_ids : Z;
  id_length_stats : list Z
}.

Definition id_analysis_init : id_analysis :=
  {| id_usage := ∅; duplicate_ids := ∅; unique_ids := ∅;
     elements_with_ids := 0; elements_without_ids := 0;
     id_length_stats := [] |}.

(** The body of [if element_id:]. *)
Definition record_id (analysis : id_analysis) (element_id : string)
    : id_analysis :=
  let seen := bool_decide (element_id ∈ unique_ids analysis) in
  {| elements_with_ids := elements_with_ids analysis + 1;
     duplicate_ids :=
       if seen
       then incr_key element_id
              (init_key element_id 1 (duplicate_ids analysis))
       else duplicate_ids analysis;
     unique_ids :=
       if seen then unique_ids analysis
       else {[element_id]} ∪ unique_ids analysis;
     id_usage := incr_key element_id
                   (init_key element_id 0 (id_usage analysis));
     id_length_stats := id_length_stats analysis ++ [Py.len element_id];
     elements_without_ids := elements_without_ids analysis |}.

(** The body of the [else:] branch. *)
Definition record_no_id (analysis : id_analysis) : id_analysis :=
  {| elements_without_ids := elements_without_ids analysis + 1;
     id_usage := id_usage analysis;
     duplicate_ids := duplicate_ids analysis;
     unique_ids := unique_ids analysis;
     elements_with_ids := elements_with_ids analysis;
     id_length_stats := id_length_stats analysis |}.

(** [element.get('id')] when it is truthy: present and not empty. *)
Definition truthy_id (element : node) : option string :=
  match get element "id" with
  | Some (String c rest) => Some (String c rest)
  | _ => None
  end.

(** One iteration of [for element in all_elements]. *)
Definition id_step (analysis : id_analysis) (element : node) : id_analysis :=
  match truthy_id element with
  | Some element_id => record_id analysis element_id
  | None => record_no_id analysis
  end.

Definition analyze_ids_comprehensive (self : analyzer) : id_analysis :=
  match soup self with
  | None => id_analysis_init
  | Some soup => fold_left id_step (find_all soup) id_analysis_init
  end.

(** *** analyze_links_comprehensive: link type and URL resolution *)

(** [href.startswith(('http://', 'https://', '//', '/'))] *)
Definition is_navigable (href : string) : bool :=
  existsb (Py.startswith href) ["http://"; "https://"; "//"; "/"].

(** The [# Resolve relative URLs] block. *)
Definition link_full_url (self : analyzer) (href : string) : string :=
  if Py.startswith href "//" then "https:" +:+ href
  else if Py.startswith href "/"
       then scheme (parsed self) +:+ "://" +:+ netloc (parsed self) +:+ href
       else href.

Inductive link_type :=
| AnchorLink
| EmailLink
| PhoneLink
| NavigableLink (full_url : string)
| OtherLink.

(** The [if]/[elif] chain on [href = link['href'].strip()]. *)
Definition categorize_link (self : analyzer) (raw_href : string) : link_type :=
  let href := Py.strip raw_href in
  if Py.startswith href "#" then AnchorLink
  else if Py.startswith href "mailto:" then EmailLink
  else if Py.startswith href "tel:" then PhoneLink
  else if is_navigable href then NavigableLink (link_full_url self href)
  else OtherLink.

(** *** analyze_network_comprehensive: URL clean-up *)

(** The [# Clean and parse URL] block. *)
Definition clean_url (self : analyzer) (url : string) : string :=
  if Py.startswith url "//" then "https:" +:+ url
  else if Py.startswith url "/"
       then scheme (parsed self) +:+ "://" +:+ netloc (parsed self) +:+ url
       else url.

(** [url.startswith(('http://', 'https://'))] after the clean-up: only
    these resources are recorded. *)
Definition is_recorded (url : string) : bool :=
  existsb (Py.startswith url) ["http://"; "https://"].


(** *** analyze_images_comprehensive

    The tallies of the image loop and of the [picture] and [svg] passes.
    The [formats], [size_attributes] and [image_locations] histograms and
    the three ratios, which are computed beside them, are not embedded. *)









(** *** generate_comprehensive_analysis *)

(** The keys under which the fourteen analyzers are stored. *)
Definition analyzer_keys : list string :=
  [ "element_analysis"; "attribute_analysis"; "class_analysis";
    "id_analysis"; "link_analysis"; "image_analysis"; "script_analysis";
    "network_analysis"; "page_structure"; "css_analysis"; "form_analysis";
    "accessibility_analysis"; "seo_analysis"; "security_analysis" ].

(** What [fetch_page] stores on [self] when it succeeds. *)
Record page := {
  response_time : float;
  html_content : string;
  response_headers : gmap string string;
  document : node
}.

Section Aggregator.

(** [self.url] *)
Variable url : string.
(** [fetch_page]: [None] where it returns [False]. *)
Variable fetch_page : option page.
(** The two readings of [time.time()] and the one of [time.strftime]. *)
Variables start_time end_time : float.
Variable timestamp : string.
(** The analyzer behind each key of [analyzer_keys]; each reads the
    page and advances [self.statistics_count]. *)
Variable analyze : string -> page -> Z -> result (value * Z).

(** The analyzer entries of the [comprehensive_data] literal, evaluated
    in order with the counter threaded through. *)
Fixpoint run_analyzers (p : page) (keys : list string)
    (statistics_count : Z) : result (list (string * value) * Z) :=
  match keys with
  | [] => Ok ([], statistics_count)
  | key :: keys' =>
      r ← analyze key p statistics_count;
      rest ← run_analyzers p keys' r.2;
      Ok ((key, r.1) :: rest.1, rest.2)
  end.

(** [k.endswith('_analysis') or k == 'page_structure'] *)
Definition is_category_key (k : string) : bool :=
  Py.startswith (String.rev k) (String.rev "_analysis")
  || bool_decide (k = "page_structure").

Definition generate_comprehensive_analysis : result value :=
  match fetch_page with
  | None =>
      Ok (VDict [ ("error", VStr "Failed to fetch page");
                  ("url", VStr url) ])
  | Some p =>
      r ← run_analyzers p analyzer_keys 0;
      let comprehensive_data :=
        [ ("url", VStr url);
          ("fetch_info",
           VDict [ ("response_time", VFloat (response_time p));
                   ("content_length", VInt (Py.len (html_content p)));
                   ("response_headers_count",
                    VInt (Z.of_nat (size (response_headers p)))) ]) ]
        ++ r.1 in
      let statistics_count := r.2 + 2 in
      Ok (VDict
            (comprehensive_data ++
             [ ("meta_analysis",
                VDict [ ("total_statistics_generated",
                         VInt statistics_count);
                        ("processing_time",
                         VFloat (end_time - start_time)%float);
                        ("analysis_timestamp", VStr timestamp);
                        ("analysis_categories",
                         VInt (count_if is_category_key
                                 comprehensive_data.*1));
                        ("analyzer_version", VStr "1.0.0") ]) ]))
  end.

End Aggregator.

(** *** analyze_network_comprehensive: recorded URLs and their security *)





(** *** analyze_every_element: tags *)

Record element_analysis := {
  elements_by_tag : gmap string Z;
  unique_tags : gset string;
  total_elements : Z
}.

(** [# Count elements by tag], with [unique_tags.add] *)
Definition tag_step (a : element_analysis) (element : node)
    : element_analysis :=
  match tag_name element with
  | EmptyString => a
  | tag =>
      {| unique_tags := {[tag]} ∪ unique_tags a;
         elements_by_tag := incr_key tag (init_key tag 0 (elements_by_tag a));
         total_elements := total_elements a |}
  end.

Definition analyze_every_element (self : analyzer) : element_analysis :=
  match soup self with
  | None =>
      {| elements_by_tag := ∅; unique_tags := ∅; total_elements := 0 |}
  | Some soup =>
      let all_elements := find_all soup in
      fold_left tag_step all_elements
        {| elements_by_tag := ∅; unique_tags := ∅;
           total_elements := Z.of_nat (length all_elements) |}
  end.

End Comprehensive.

(** * Notions used to state the properties *)

Module Spec.

(** The points scored by the headers of [table] that are keys of
    [response_headers]. *)
Definition points (response_headers : gmap string string)
    (table : list (string * Z)) : Z :=
  foldr (fun e acc =>
           (if bool_decide (is_Some (response_headers !! e.1))
            then e.2 else 0) + acc) 0 table.

(** The names of the weighted headers, as a set. *)
Definition weighted_names : gset string :=
  list_to_set Core.important_headers.*1.

(** Weights that are positive multiples of five. *)
Definition fivefold (table : list (string * Z)) : Prop :=
  Forall (fun e => 0 < e.2 ∧ (e.2 mod 5 = 0)) table.

(** The number of nested tags below [n]: 0 for a tag with no tag among
    its contents. *)
Fixpoint height (n : node) : nat :=
  match n with
  | Text _ => 0%nat
  | Tag _ _ contents =>
      foldr (fun c acc => Nat.max (if is_tag c then S (height c) else 0) acc)
        0%nat contents
  end.

(** The document [<html></html>]. *)
Definition bare_html : node := Tag "[document]" ∅ [Tag "html" ∅ []].

(** The data-point count in the words of the specification: a mapping
    counts its keys plus the counts of its values, a sequence its length
    plus the counts of its elements, any other value 1. *)
Fixpoint structural_count (v : value) : Z :=
  match v with
  | VDict items =>
      Z.of_nat (length items)
      + foldr (fun kv acc => structural_count kv.2 + acc) 0 items
  | VList items =>
      Z.of_nat (length items)
      + foldr (fun item acc => structural_count item + acc) 0 items
  | _ => 1
  end.

(** A mapping without the entry for [key]. *)
Definition without (key : string) (items : list (string * value))
    : list (string * value) :=
  List.filter (fun kv => negb (bool_decide (kv.1 = key))) items.

(** A small page and the response that carries it. *)
Definition sample_soup : node :=
  Tag "[document]" ∅
    [Tag "html" ∅
       [Tag "head" ∅ [Tag "title" ∅ [Text "Example"]];
        Tag "body" ∅ [Tag "h1" ∅ [Text "Example"]]]].

Definition sample_response : Core.response_data :=
  {| Core.status_code := 200;
     Core.content_length := 96;
     Core.headers := {[ "X-Frame-Options" := "DENY" ]};
     Core.response_time := 0.5;
     Core.html := "";
     Core.soup := sample_soup |}.

(** An analyzer that reports one number. *)
Definition sample_analyzer (_ : node) : result value :=
  Ok (VDict [("count", VInt 1)]).

(** The three alt-text states of an image.  [blank] decides which [alt]
    values count as empty. *)
Inductive alt_state :=
| Missing
| Empty
| Present.

Global Instance alt_state_eq_dec : EqDecision alt_state.
Proof. solve_decision. Defined.







Definition analyzer_of (soup : node) : Comprehensive.analyzer :=
  {| Comprehensive.url := "http://example.com/";
     Comprehensive.parsed :=
       {| Comprehensive.scheme := "http";
          Comprehensive.netloc := "example.com" |};
     Comprehensive.soup := Some soup |}.

(** The values of the [id] attributes of a document, in document order. *)
Definition id_attributes (soup : node) : list string :=
  omap (fun e => get e "id") (find_all soup).

(** Two records of id bookkeeping that differ at most in
    [elements_without_ids]. *)
Definition same_ids (x y : Comprehensive.id_analysis) : Prop :=
  Comprehensive.id_usage x = Comprehensive.id_usage y
  ∧ Comprehensive.duplicate_ids x = Comprehensive.duplicate_ids y
  ∧ Comprehensive.unique_ids x = Comprehensive.unique_ids y
  ∧ Comprehensive.elements_with_ids x = Comprehensive.elements_with_ids y
  ∧ Comprehensive.id_length_stats x = Comprehensive.id_length_stats y.

(** Whether an element adds to [positive_tabindex]: its [tabindex] reads
    as an integer above 0. *)
Definition counts_as_positive (elem : node) : bool :=
  match Core.int_tabindex elem with
  | Ok t => 0 <? t
  | Raise _ => false
  end.

(** What one JSON-LD block adds to the collected types: the [@type] of a
    decoded mapping that has one, nothing otherwise. *)
Definition schema_entry (json_loads : string -> result value)
    (script : node) : list value :=
  match Core.string_of script with
  | Some (String c s') =>
      match json_loads (String c s') with
      | Ok (VDict items) =>
          match Core.assoc "@type" items with
          | Some ty => [ty]
          | None => []
          end
      | _ => []
      end
  | _ => []
  end.

(** The exception a JSON-LD block lets through: what the decoder raises
    on its text, unless the [except] clause of the loop names it. *)
Definition uncaught (json_loads : string -> result value)
    (script : node) : option exn :=
  match Core.string_of script with
  | Some (String c s') =>
      match json_loads (String c s') with
      | Raise e =>
          if bool_decide (e ∈ [JSONDecodeError; TypeError])
          then None
          else Some e
      | Ok _ => None
      end
  | _ => None
  end.

(** A document whose only content is one JSON-LD block. *)
Definition json_ld_page (text : string) : node :=
  Tag "[document]" ∅
    [Tag "html" ∅
       [Tag "head" ∅
          [Tag "script" {[ "type" := "application/ld+json" ]}
             [Text text]]]].

Fixpoint replicate_char (n : nat) (c : ascii) : string :=
  match n with
  | O => EmptyString
  | S n' => String c (replicate_char n' c)
  end.

(** ['[' * 1000]: a thousand arrays opened and none closed. *)
Definition deep_json : string := replicate_char 1000 "[".

Definition deep_json_page : node := json_ld_page deep_json.

(** The text of a JSON object with the one member [@type]. *)
Definition article_json : string :=
  String "{" (String "034" ("@type" ++ String "034" (": "
    ++ String "034" ("Article" ++ String "034" "}")))).

Fixpoint nesting (s : string) : nat :=
  match s with
  | String "[" s' => S (nesting s')
  | _ => O
  end.

(** A decoder to run the passes with: it knows one object, gives up with
    [RecursionError] on a text that opens a thousand arrays in a row, as
    CPython's decoder does under the default recursion limit, and takes
    any other text for malformed. *)
Definition sample_decoder (s : string) : result value :=
  if bool_decide (1000 <= nesting s)%nat then Raise RecursionError
  else if bool_decide (s = article_json)
       then Ok (VDict [("@type", VStr "Article")])
       else Raise JSONDecodeError.

(** A page with a malformed JSON-LD block followed by a decodable one. *)
Definition article_page : node :=
  Tag "[document]" ∅
    [Tag "html" ∅
       [Tag "head" ∅
          [Tag "script" {[ "type" := "application/ld+json" ]}
             [Text "{oops"];
           Tag "script" {[ "type" := "application/ld+json" ]}
             [Text article_json]]]].

(** A class token that adds to the BEM score. *)
Definition bem_like (cls : string) : bool :=
  Py.contains "-" cls || Py.contains "__" cls.

(** A class token that adds to the atomic-CSS score. *)
Definition short_or_hidden (cls : string) : bool :=
  (Py.len cls <=? 5) || bool_decide (cls = "hidden").

(** Every character of [s] is whitespace. *)
Fixpoint all_space (s : string) : bool :=
  match s with
  | EmptyString => true
  | String c s' => Py.isspace c && all_space s'
  end.

(** A script without a truthy [src]. *)
Definition is_inline (script : node) : bool :=
  negb (Py.truthy (get script "src")).

(** [element.string or ''] *)
Definition string_or_empty (element : node) : string :=
  Py.or_else (Core.string_of element) "".

(** The elements the analyzer of a page walks over. *)
Definition all_elements (self : Comprehensive.analyzer) : list node :=
  match Comprehensive.soup self with
  | Some soup => find_all soup
  | None => []
  end.

(** The format the performance analyzer files an element under. *)
Definition format_of (e : node) : option string :=
  Core.image_format (Core.image_source e).

(** The counts kept by the loop over the scripts. *)
Definition js_invariant (st : Core.javascript) (n : Z) : Prop :=
  Core.inline_scripts st + Core.external_scripts st = n
  ∧ 0 ≤ Core.inline_scripts st
  ∧ 0 ≤ Core.async_scripts st ≤ Core.external_scripts st
  ∧ 0 ≤ Core.defer_scripts st ≤ Core.external_scripts st
  ∧ 0 ≤ Core.module_scripts st ≤ Core.external_scripts st
  ∧ 0 ≤ Core.nomodule_scripts st ≤ Core.external_scripts st
  ∧ 0 ≤ Core.minified_scripts st ≤ Core.inline_scripts st
  ∧ 0 ≤ Core.total_js_size st.

(** What the loop keeps true of the id bookkeeping. *)
Definition id_invariant (st : Comprehensive.id_analysis) : Prop :=
  Comprehensive.unique_ids st = dom (Comprehensive.id_usage st)
  ∧ (∀ k n, Comprehensive.id_usage st !! k = Some n → 1 ≤ n)
  ∧ (∀ k, Comprehensive.duplicate_ids st !! k
          = match Comprehensive.id_usage st !! k with
            | Some n => if 2 <=? n then Some n else None
            | None => None
            end)
  ∧ Z.of_nat (length (Comprehensive.id_length_stats st)) = Comprehensive.elements_with_ids st
  ∧ Z.of_nat (size (Comprehensive.unique_ids st)) ≤ Comprehensive.elements_with_ids st.

End Spec.

(** * Properties *)

(** ** Security headers *)

Section SecurityScore.

Import Core Spec.

Lemma scan_headers_points response_headers table st :
  (fold_left (scan_header response_headers) table st).1
  = st.1 + points response_headers table.
Proof.
  revert st. induction table as [|e table IH]; intros st; simpl.
  - lia.
  - rewrite IH. unfold scan_header.
    destruct (response_headers !! e.1) as [v|] eqn:E; simpl; lia.
Qed.

Lemma analyze_security_headers_score response_headers :
  security_score (analyze_security_headers response_headers)
  = score_of (points response_headers important_headers)
      total_possible_score.
Proof.
  unfold analyze_security_headers, scan_headers.
  pose proof (scan_headers_points response_headers important_headers (0, []))
    as H.
  destruct (fold_left _ _ _) as [actual present]. simpl in *.
  by rewrite H.
Qed.

Lemma points_bounds response_headers table :
  fivefold table →
  0 ≤ points response_headers table ≤ sum_scores table
  ∧ points response_headers table mod 5 = 0
  ∧ sum_scores table mod 5 = 0.
Proof.
  induction 1 as [|e table [Hpos Hmod] _ IH]; simpl; [done|].
  destruct IH as (Hb & Hm & Hs).
  assert (∀ x, x mod 5 = 0 → (e.2 + x) mod 5 = 0) as Hadd.
  { intros x Hx. rewrite Z.add_mod, Hmod, Hx by lia. done. }
  case_bool_decide; repeat split; auto; lia.
Qed.

Lemma points_full response_headers table :
  fivefold table →
  points response_headers table = sum_scores table
  ↔ ∀ header, header ∈ table.*1 → is_Some (response_headers !! header).
Proof.
  induction 1 as [|e table [Hpos Hmod] Hrest IH]; simpl.
  - split; [intros _ ? ?%elem_of_nil; done | done].
  - pose proof (points_bounds response_headers table Hrest) as (Hb & _).
    split.
    + intros Heq header [->|Hin]%elem_of_cons.
      * case_bool_decide; [done | lia].
      * apply IH; [|done]. case_bool_decide; lia.
    + intros Hall.
      rewrite bool_decide_eq_true_2 by (apply Hall; left).
      f_equal. apply IH. intros header Hin. apply Hall. by right.
Qed.

Lemma points_none response_headers table :
  fivefold table →
  points response_headers table = 0
  ↔ ∀ header, header ∈ table.*1 → response_headers !! header = None.
Proof.
  induction 1 as [|e table [Hpos Hmod] Hrest IH]; simpl.
  - split; [intros _ ? ?%elem_of_nil; done | done].
  - pose proof (points_bounds response_headers table Hrest) as (Hb & _).
    split.
    + intros Heq header [->|Hin]%elem_of_cons.
      * case_bool_decide as Hp; [lia|].
        by apply eq_None_not_Some.
      * apply IH; [|done]. case_bool_decide; lia.
    + intros Hall.
      rewrite bool_decide_eq_false_2.
      2:{ rewrite (Hall e.1) by left. by intros [? ?]. }
      rewrite (proj2 IH); [done|].
      intros header Hin. apply Hall. by right.
Qed.

Lemma important_headers_fivefold : fivefold important_headers.
Proof. unfold fivefold, important_headers. repeat constructor. Qed.

(** The seventeen values the score can take. *)
Lemma score_of_cases (actual : Z) :
  0 ≤ actual ≤ 80 → actual mod 5 = 0 →
  (0 <=? score_of actual 80)%float = true
  ∧ (score_of actual 80 <=? 100)%float = true
  ∧ ((score_of actual 80 =? 100)%float = true ↔ actual = 80)
  ∧ ((score_of actual 80 =? 0)%float = true ↔ actual = 0).
Proof.
  intros Hrange Hmod.
  assert (∃ k : nat, (k ≤ 16)%nat ∧ actual = 5 * Z.of_nat k) as (k & Hk & ->).
  { pose proof (Z.div_mod actual 5 ltac:(lia)) as Hdiv.
    rewrite Hmod in Hdiv. exists (Z.to_nat (actual / 5)). lia. }
  do 17 (destruct k as [|k]; [vm_compute; repeat split; congruence|]).
  lia.
Qed.

Lemma total_possible_score_eq : total_possible_score = 80.
Proof. reflexivity. Qed.

Lemma points_same_presence (h1 h2 : gmap string string) table :
  (∀ header, header ∈ table.*1 →
     (is_Some (h1 !! header) ↔ is_Some (h2 !! header))) →
  points h1 table = points h2 table.
Proof.
  induction table as [|e table IH]; intros Hsame; simpl; [done|].
  rewrite IH by (intros header Hin; apply Hsame; by right).
  pose proof (Hsame e.1 ltac:(left)) as He.
  f_equal. by repeat case_bool_decide; tauto.
Qed.

Lemma elem_of_weighted_names header (h : gmap string string) :
  header ∈ dom h ∩ weighted_names
  ↔ header ∈ important_headers.*1 ∧ is_Some (h !! header).
Proof.
  unfold weighted_names.
  rewrite elem_of_intersection, elem_of_dom, elem_of_list_to_set. tauto.
Qed.

End SecurityScore.

(** C1. The security score lies in [0, 100]; it is 100 exactly when all ten
    weighted headers are keys of the response-header mapping, and 0 exactly
    when none of them is. *)
Theorem security_score_range_and_extremes
    (response_headers : gmap string string) :
  let score :=
    Core.security_score (Core.analyze_security_headers response_headers) in
  length Core.important_headers = 10%nat
  ∧ (0 <=? score)%float = true
  ∧ (score <=? 100)%float = true
  ∧ ((score =? 100)%float = true
     ↔ ∀ header, header ∈ Core.important_headers.*1 →
                 is_Some (response_headers !! header))
  ∧ ((score =? 0)%float = true
     ↔ ∀ header, header ∈ Core.important_headers.*1 →
                 response_headers !! header = None).
Proof.
  intros score. subst score.
  rewrite analyze_security_headers_score, total_possible_score_eq.
  pose proof important_headers_fivefold as Hfive.
  pose proof (points_bounds response_headers _ Hfive) as (Hb & Hm & _).
  change (Core.sum_scores Core.important_headers) with 80 in Hb.
  destruct (score_of_cases _ Hb Hm) as (Hlo & Hhi & Hfull & Hnone).
  split; [reflexivity|]. split; [exact Hlo|]. split; [exact Hhi|]. split.
  - rewrite Hfull. apply (points_full response_headers _ Hfive).
  - rewrite Hnone. apply (points_none response_headers _ Hfive).
Qed.

(** C10. Two response-header mappings that contain the same subset of the
    ten canonical names as keys get the same security score, whatever the
    values of the headers and whatever other headers are present. *)
Theorem security_score_presence_only (h1 h2 : gmap string string) :
  dom h1 ∩ Spec.weighted_names = dom h2 ∩ Spec.weighted_names →
  Core.security_score (Core.analyze_security_headers h1)
  = Core.security_score (Core.analyze_security_headers h2).
Proof.
  intros Hsame. rewrite !analyze_security_headers_score. f_equal.
  apply points_same_presence. intros header Hin.
  pose proof (elem_of_weighted_names header h1) as H1.
  pose proof (elem_of_weighted_names header h2) as H2.
  rewrite Hsame in H1. tauto.
Qed.

Lemma security_score_presence_only_witness :
  let h1 : gmap string string :=
    {[ "X-Frame-Options" := "DENY"; "Server" := "nginx" ]} in
  let h2 : gmap string string :=
    {[ "X-Frame-Options" := "SAMEORIGIN";
       "x-content-type-options" := "nosniff" ]} in
  dom h1 ∩ Spec.weighted_names = dom h2 ∩ Spec.weighted_names
  ∧ Core.security_score (Core.analyze_security_headers h1)
    = Core.security_score (Core.analyze_security_headers h2).
Proof.
  intros h1 h2.
  assert (dom h1 ∩ Spec.weighted_names = dom h2 ∩ Spec.weighted_names) as H
    by (vm_compute; reflexivity).
  split; [exact H | exact (security_score_presence_only h1 h2 H)].
Defined.


(** ** The document tree *)

Section Tree.

Import Spec.

(** Induction on a document with the hypothesis for every node of the
    contents. *)
Lemma node_ind' (P : node → Prop) :
  (∀ s, P (Text s)) →
  (∀ name attrs contents,
     Forall P contents → P (Tag name attrs contents)) →
  ∀ n, P n.
Proof.
  intros HText HTag.
  fix IH 1. intros [s | name attrs contents].
  - apply HText.
  - apply HTag. induction contents as [|c contents IHc]; constructor.
    + apply IH.
    + apply IHc.
Qed.

Lemma find_all_cons name attrs x contents :
  find_all (Tag name attrs (x :: contents))
  = (if is_tag x then x :: find_all x else [])
    ++ find_all (Tag name attrs contents).
Proof. reflexivity. Qed.

Lemma elem_of_find_all c name attrs contents :
  c ∈ find_all (Tag name attrs contents)
  ↔ ∃ x, x ∈ contents ∧ is_tag x = true ∧ (c = x ∨ c ∈ find_all x).
Proof.
  simpl. rewrite list_elem_of_In, in_flat_map. split.
  - intros (x & Hx & Hc). exists x. rewrite list_elem_of_In.
    destruct (is_tag x); [|destruct Hc].
    destruct Hc as [->|Hc]; [auto|].
    rewrite list_elem_of_In. auto.
  - intros (x & Hx & Htag & Hc). exists x.
    rewrite <- list_elem_of_In. split; [done|]. rewrite Htag.
    destruct Hc as [->|Hc]; [by left|]. right. by apply list_elem_of_In.
Qed.

Lemma height_cons name attrs x contents :
  height (Tag name attrs (x :: contents))
  = Nat.max (if is_tag x then S (height x) else 0)
      (height (Tag name attrs contents)).
Proof. reflexivity. Qed.

Lemma height_child x name attrs contents :
  x ∈ contents → is_tag x = true →
  (height x < height (Tag name attrs contents))%nat.
Proof.
  intros Hx Htag.
  induction Hx as [x contents | x y contents Hx IH]; rewrite height_cons.
  - rewrite Htag. lia.
  - specialize (IH Htag). destruct (is_tag y); lia.
Qed.

Lemma find_all_height_lt e c :
  c ∈ find_all e → (height c < height e)%nat.
Proof.
  revert c. induction e as [s | name attrs contents IH] using node_ind';
    intros c Hc.
  - by apply elem_of_nil in Hc.
  - apply elem_of_find_all in Hc as (x & Hx & Htag & Hc).
    pose proof (height_child x name attrs contents Hx Htag) as Hlt.
    destruct Hc as [->|Hc]; [done|].
    rewrite Forall_forall in IH. specialize (IH x Hx c Hc). lia.
Qed.

(** Either no tag lies below [e], or one of them is one level less high. *)
Lemma find_all_height_top e :
  (find_all e = [] ∧ height e = 0%nat)
  ∨ (∃ c, c ∈ find_all e ∧ height e = S (height c)).
Proof.
  destruct e as [s | name attrs contents]; [by left|].
  induction contents as [|x contents IH]; [by left|].
  rewrite height_cons, find_all_cons.
  destruct (is_tag x) eqn:Htag.
  - right.
    destruct IH as [[Hnil H0] | (c & Hc & Hh)].
    + exists x. split; [left|]. rewrite H0. lia.
    + destruct (decide (height c ≤ height x)%nat).
      * exists x. split; [left|]. rewrite Hh. lia.
      * exists c. split; [|rewrite Hh; lia].
        apply elem_of_app. by right.
  - destruct IH as [[Hnil H0] | (c & Hc & Hh)].
    + left. rewrite Hnil, H0. done.
    + right. exists c. split; [done|]. rewrite Hh. lia.
Qed.

End Tree.

(** ** DOM complexity *)

Section DomComplexity.

Import Core Spec.

Lemma mapM_Ok {A B} (f : A → result B) (g : A → B) (l : list A) :
  (∀ x, x ∈ l → f x = Ok (g x)) → mapM f l = Ok (map g l).
Proof.
  induction l as [|x l IH]; intros Hf; [done|].
  simpl. rewrite (Hf x) by left. simpl.
  rewrite IH by (intros y Hy; apply Hf; by right). done.
Qed.

Lemma fold_left_max_spec (l : list Z) (x : Z) :
  let m := fold_left Z.max l x in
  (∀ y, y ∈ x :: l → y ≤ m) ∧ m ∈ x :: l.
Proof.
  revert x. induction l as [|a l IH]; intros x; simpl.
  - split; [|left]. intros y ->%list_elem_of_singleton. lia.
  - destruct (IH (Z.max x a)) as [Hle Hin]. split.
    + intros y [->|Hy]%elem_of_cons.
      * specialize (Hle (Z.max x a) ltac:(left)). lia.
      * apply elem_of_cons in Hy as [->|Hy].
        -- specialize (Hle (Z.max x a) ltac:(left)). lia.
        -- apply Hle. by right.
    + apply elem_of_cons in Hin as [Hm|Hin].
      * rewrite Hm. destruct (Z.max_spec x a) as [[_ ->]|[_ ->]].
        -- right; left.
        -- left.
      * right. by right.
Qed.

Lemma get_tree_depth_S fuel element current_depth :
  get_tree_depth (S fuel) element current_depth
  = match find_all element with
    | [] => Ok current_depth
    | children =>
        depths ← mapM (fun child =>
                    get_tree_depth fuel child (current_depth + 1))
                  children;
        Py.max depths
    end.
Proof. reflexivity. Qed.

(** With recursion to spare, [get_tree_depth] returns the depth it was
    given plus the height of the element. *)
Lemma get_tree_depth_height fuel element current_depth :
  (height element < fuel)%nat →
  get_tree_depth fuel element current_depth
  = Ok (current_depth + Z.of_nat (height element)).
Proof.
  revert element current_depth.
  induction fuel as [|fuel IH]; intros element d Hfuel; [lia|].
  rewrite get_tree_depth_S.
  destruct (find_all element) as [|c0 cs] eqn:Hall.
  - destruct (find_all_height_top element) as [[_ ->] | (c & Hc & _)].
    + f_equal. lia.
    + rewrite Hall in Hc. by apply elem_of_nil in Hc.
  - rewrite (mapM_Ok _ (fun c => d + 1 + Z.of_nat (height c))).
    2:{ intros c Hc. apply IH. rewrite <- Hall in Hc.
        apply find_all_height_lt in Hc. lia. }
    simpl. f_equal.
    pose proof (fold_left_max_spec
                  (map (fun c => d + 1 + Z.of_nat (height c)) cs)
                  (d + 1 + Z.of_nat (height c0))) as [Hle Hin].
    change (?a :: map ?f cs) with (map f (c0 :: cs)) in Hle, Hin.
    rewrite <- Hall in Hle, Hin.
    apply Z.le_antisymm.
    + apply list_elem_of_fmap in Hin as (c & -> & Hc).
      apply find_all_height_lt in Hc. lia.
    + destruct (find_all_height_top element) as [[Hnil _] | (c & Hc & ->)].
      * congruence.
      * specialize (Hle (d + 1 + Z.of_nat (height c))).
        etrans; [|apply Hle; apply list_elem_of_fmap; eauto]. lia.
Qed.

(** With recursion to spare for the [html] element, the analyzer
    returns. *)
Lemma calculate_dom_complexity_returns fuel soup :
  (∀ html, soup_html soup = Some html → (height html < fuel)%nat) →
  ∃ r, calculate_dom_complexity fuel soup = Ok r.
Proof.
  intros Hfuel. unfold calculate_dom_complexity.
  destruct (soup_html soup) as [html|] eqn:Hhtml.
  - rewrite get_tree_depth_height by auto. eexists. reflexivity.
  - eexists. reflexivity.
Qed.

End DomComplexity.

(** C2, as the specification states it, fails on [<html></html>]: the
    analyzer reports one element at depth 0 and a complexity score of 0, not
    of 1 × max(0, 1). *)
Lemma complexity_score_bare_html :
  ∃ r, Core.calculate_dom_complexity 1 Spec.bare_html = Ok r
       ∧ Core.total_elements r = 1
       ∧ Core.max_depth r = 0
       ∧ Core.complexity_score r = 0
       ∧ Core.complexity_score r
         ≠ Core.total_elements r * Z.max (Core.max_depth r) 1.
Proof.
  eexists. split; [vm_compute; reflexivity|]. simpl.
  repeat split; try reflexivity. discriminate.
Qed.

(** C2, amended.  With recursion to spare for the height of the [html]
    element, the analyzer returns; [complexity_score] is [total_elements]
    times [max_depth] when the document has an [html] element and
    [total_elements] times 1 when it has none.  It therefore equals
    [total_elements × max(max_depth, 1)] whenever there is no [html] element
    or [max_depth] is at least 1. *)
Theorem complexity_score_formula (fuel : nat) (soup : node) :
  (∀ html, soup_html soup = Some html → (Spec.height html < fuel)%nat) →
  ∃ r, Core.calculate_dom_complexity fuel soup = Ok r
       ∧ Core.total_elements r = Z.of_nat (length (find_all soup))
       ∧ Core.max_depth r
         = match soup_html soup with
           | Some html => Z.of_nat (Spec.height html)
           | None => 0
           end
       ∧ Core.complexity_score r
         = Core.total_elements r
           * match soup_html soup with
             | Some _ => Core.max_depth r
             | None => 1
             end
       ∧ (soup_html soup = None ∨ 1 ≤ Core.max_depth r →
          Core.complexity_score r
          = Core.total_elements r * Z.max (Core.max_depth r) 1).
Proof.
  intros Hfuel. unfold Core.calculate_dom_complexity.
  destruct (soup_html soup) as [html|] eqn:Hhtml.
  - rewrite get_tree_depth_height by auto. simpl.
    eexists. split; [reflexivity|]. simpl.
    repeat split; try reflexivity.
    intros [?|Hdepth]; [done|]. f_equal. lia.
  - simpl. eexists. split; [reflexivity|]. simpl.
    repeat split; reflexivity.
Qed.

Lemma complexity_score_formula_witness :
  let soup :=
    Tag "[document]" ∅
      [Tag "html" ∅ [Tag "body" ∅ [Tag "h1" ∅ [Text "title"]; Tag "p" ∅ []]]] in
  (∀ html, soup_html soup = Some html → (Spec.height html < 3)%nat)
  ∧ ∃ r, Core.calculate_dom_complexity 3 soup = Ok r
         ∧ Core.total_elements r = 4
         ∧ Core.max_depth r = 2
         ∧ Core.complexity_score r = 8.
Proof.
  intros soup.
  assert (∀ html, soup_html soup = Some html → (Spec.height html < 3)%nat)
    as Hfuel.
  { intros html Hhtml. vm_compute in Hhtml. injection Hhtml as <-.
    vm_compute. lia. }
  split; [exact Hfuel|].
  destruct (complexity_score_formula 3 soup Hfuel)
    as (r & Hr & Htotal & Hdepth & Hscore & _).
  exists r. split; [exact Hr|].
  rewrite Hscore, Hdepth, Htotal. vm_compute. done.
Defined.

(** ** Meta statistics *)

Section Counting.

Import Core Spec.

(** Induction on a value with the hypothesis for every component. *)
Lemma value_ind' (P : value → Prop) :
  P VNone →
  (∀ b, P (VBool b)) →
  (∀ z, P (VInt z)) →
  (∀ f, P (VFloat f)) →
  (∀ s, P (VStr s)) →
  (∀ items, Forall P items → P (VList items)) →
  (∀ items, Forall (fun kv => P kv.2) items → P (VDict items)) →
  (∀ members, P (VSet members)) →
  ∀ v, P v.
Proof.
  intros HNone HBool HInt HFloat HStr HList HDict HSet.
  fix IH 1. intros [ | b | z | f | s | items | items | members ].
  - apply HNone.
  - apply HBool.
  - apply HInt.
  - apply HFloat.
  - apply HStr.
  - apply HList. induction items as [|v items IHl]; constructor.
    + apply IH.
    + apply IHl.
  - apply HDict. induction items as [|[k v] items IHl]; constructor.
    + apply IH.
    + apply IHl.
  - apply HSet.
Qed.

(** The accumulator of [count_total_statistics] is added to. *)
Lemma count_total_statistics_structural obj count :
  count_total_statistics obj count = count + structural_count obj.
Proof.
  revert count.
  induction obj as [ | b | z | f | s | items IH | items IH | members ]
    using value_ind'; intros count; try reflexivity.
  - simpl. rewrite Z.add_assoc.
    generalize (count + Z.of_nat (length items)). clear count.
    induction IH as [|v items Hv _ IHl]; intros c; simpl.
    + lia.
    + rewrite IHl, Hv. lia.
  - simpl. rewrite Z.add_assoc.
    generalize (count + Z.of_nat (length items)). clear count.
    induction IH as [|kv items Hv _ IHl]; intros c; simpl.
    + lia.
    + rewrite IHl, Hv. lia.
Qed.

End Counting.

Section Mappings.

Import Core Spec.

Lemma assoc_app_new key v items :
  without key items = items →
  assoc key (items ++ [(key, v)]) = Some v.
Proof.
  induction items as [|[k w] items IH]; simpl.
  - rewrite bool_decide_eq_true_2; done.
  - unfold without. simpl. case_bool_decide; simpl.
    + intros Hlen. apply (f_equal length) in Hlen. simpl in Hlen.
      pose proof (filter_length_le
                    (fun kv => negb (bool_decide (kv.1 = key))) items).
      lia.
    + intros [= Hrest]. auto.
Qed.

Lemma without_app_new key v items :
  without key (items ++ [(key, v)]) = without key items.
Proof.
  unfold without. rewrite List.filter_app. simpl.
  rewrite bool_decide_eq_true_2 by done. simpl. apply app_nil_r.
Qed.

End Mappings.

Section CoreAggregator.

Import Core Spec.

Variable url : string.
Variable fetch_single_user_agent : string → option response_data.
Variables start_time end_time : float.
Variable timestamp : string.
Variable fuel : nat.
Variables analyze_css_selectors analyze_javascript_complexity
  analyze_seo_signals analyze_accessibility_advanced : node → result value.
Variable analyze_performance_metrics : node → response_data → result value.

Let generate :=
  generate_comprehensive_analysis url fetch_single_user_agent
    start_time end_time timestamp fuel
    analyze_css_selectors analyze_javascript_complexity
    analyze_seo_signals analyze_accessibility_advanced
    analyze_performance_metrics.

(** The shape of a merged result: the analysis entries followed by the
    meta block computed from them. *)
Lemma generate_merged user_agent response result :
  fetch_single_user_agent user_agent = Some response →
  generate user_agent = Ok result →
  ∃ all_stats,
    result = VDict (all_stats ++
                    [("meta_statistics",
                      meta_statistics start_time end_time timestamp
                        all_stats)])
    ∧ without "meta_statistics" all_stats = all_stats.
Proof.
  intros Hfetch. unfold generate, generate_comprehensive_analysis.
  rewrite Hfetch.
  destruct (calculate_dom_complexity fuel (soup response)); [|done].
  destruct (analyze_css_selectors (soup response)); [|done].
  destruct (analyze_javascript_complexity (soup response)); [|done].
  destruct (analyze_performance_metrics (soup response) response); [|done].
  destruct (analyze_seo_signals (soup response)); [|done].
  destruct (analyze_accessibility_advanced (soup response)); [|done].
  unfold mbind, result_bind. cbv beta iota zeta.
  intros H.
  apply (f_equal (fun r => match r with Ok v => v | Raise _ => VNone end))
    in H.
  cbv beta iota in H. subst result. eexists. split; reflexivity.
Qed.

(** When the fetch succeeds and every analyzer returns, so does the
    aggregator. *)
Lemma generate_returns user_agent response css js perf seo a11y :
  fetch_single_user_agent user_agent = Some response →
  (∀ html, soup_html (soup response) = Some html →
           (height html < fuel)%nat) →
  analyze_css_selectors (soup response) = Ok css →
  analyze_javascript_complexity (soup response) = Ok js →
  analyze_performance_metrics (soup response) response = Ok perf →
  analyze_seo_signals (soup response) = Ok seo →
  analyze_accessibility_advanced (soup response) = Ok a11y →
  ∃ result, generate user_agent = Ok result.
Proof.
  intros Hfetch Hfuel Hcss Hjs Hperf Hseo Ha11y.
  unfold generate, generate_comprehensive_analysis. rewrite Hfetch.
  destruct (calculate_dom_complexity_returns fuel (soup response) Hfuel)
    as (dom & ->).
  rewrite Hcss, Hjs, Hperf, Hseo, Ha11y. eexists. reflexivity.
Qed.

(** C7. The meta block's [total_data_points] is the structural count of
    the merged result without the meta block; and a merged result is
    produced whenever the fetch succeeds and the analyzers return. *)
Theorem meta_total_data_points user_agent response :
  fetch_single_user_agent user_agent = Some response →
  (∀ result,
     generate user_agent = Ok result →
     ∃ merged meta,
       result = VDict merged
       ∧ assoc "meta_statistics" merged = Some (VDict meta)
       ∧ assoc "total_data_points" meta
         = Some (VInt (structural_count
                         (VDict (without "meta_statistics" merged)))))
  ∧ ((∀ html, soup_html (soup response) = Some html →
              (height html < fuel)%nat) →
     (∃ css, analyze_css_selectors (soup response) = Ok css) →
     (∃ js, analyze_javascript_complexity (soup response) = Ok js) →
     (∃ perf, analyze_performance_metrics (soup response) response
              = Ok perf) →
     (∃ seo, analyze_seo_signals (soup response) = Ok seo) →
     (∃ a11y, analyze_accessibility_advanced (soup response) = Ok a11y) →
     ∃ result, generate user_agent = Ok result).
Proof.
  intros Hfetch. split.
  - intros result Hresult.
    destruct (generate_merged _ _ _ Hfetch Hresult)
      as (all_stats & -> & Hfresh).
    eexists _, _. split; [reflexivity|]. split.
    + rewrite (assoc_app_new _ _ _ Hfresh). reflexivity.
    + rewrite without_app_new, Hfresh.
      rewrite count_total_statistics_structural. reflexivity.
  - intros Hfuel [css Hcss] [js Hjs] [perf Hperf] [seo Hseo] [a11y Ha11y].
    eapply generate_returns; eauto.
Qed.

End CoreAggregator.

Lemma meta_total_data_points_witness :
  let fetch := fun _ : string => Some Spec.sample_response in
  let generate :=
    Core.generate_comprehensive_analysis "https://example.com" fetch
      1 3 "2024-01-01 00:00:00" 10
      Spec.sample_analyzer Spec.sample_analyzer
      Spec.sample_analyzer Spec.sample_analyzer
      (fun soup _ => Spec.sample_analyzer soup) in
  fetch "desktop_chrome" = Some Spec.sample_response
  ∧ ∃ merged meta,
      generate "desktop_chrome" = Ok (VDict merged)
      ∧ Core.assoc "meta_statistics" merged = Some (VDict meta)
      ∧ Core.assoc "total_data_points" meta
        = Some (VInt (Spec.structural_count
                        (VDict (Spec.without "meta_statistics" merged)))).
Proof.
  intros fetch generate. split; [reflexivity|].
  destruct (meta_total_data_points "https://example.com" fetch
              1 3 "2024-01-01 00:00:00" 10
              Spec.sample_analyzer Spec.sample_analyzer
              Spec.sample_analyzer Spec.sample_analyzer
              (fun soup _ => Spec.sample_analyzer soup)
              "desktop_chrome" Spec.sample_response eq_refl)
    as [Hcount Hreturns].
  destruct Hreturns as [result Hresult].
  - intros html Hhtml. vm_compute in Hhtml. injection Hhtml as <-.
    vm_compute. lia.
  - eexists. reflexivity.
  - eexists. reflexivity.
  - eexists. reflexivity.
  - eexists. reflexivity.
  - eexists. reflexivity.
  - destruct (Hcount result Hresult) as (merged & meta & -> & Hmeta & Htotal).
    exists merged, meta. split; [exact Hresult|]. split; assumption.
Defined.

(** ** Fetch failure *)

(** C3, as the specification states it, fails for the Core entry point:
    its failure result has a third key, [timestamp]. *)
Lemma core_fetch_failure_has_timestamp :
  ∃ items,
    Core.generate_comprehensive_analysis "https://example.com"
      (fun _ => None) 1 3 "2024-01-01 00:00:00" 10
      Spec.sample_analyzer Spec.sample_analyzer
      Spec.sample_analyzer Spec.sample_analyzer
      (fun soup _ => Spec.sample_analyzer soup) "desktop_chrome"
    = Ok (VDict items)
    ∧ items.*1 = ["error"; "url"; "timestamp"]
    ∧ items.*1 ≠ ["error"; "url"].
Proof.
  eexists. split; [reflexivity|]. split; [reflexivity|]. discriminate.
Qed.

(** C3, amended.  When the fetch fails, the Comprehensive entry point
    returns exactly [error] and [url]; the Core entry point returns exactly
    [error], [url] and [timestamp].  Neither result holds any analyzer
    output, whatever the analyzers are. *)
Theorem fetch_failure_result
    (url user_agent timestamp : string) (start_time end_time : float)
    (fuel : nat)
    (fetch_single_user_agent : string → option Core.response_data)
    (css js seo a11y : node → result value)
    (perf : node → Core.response_data → result value)
    (analyze : string → Comprehensive.page → Z → result (value * Z)) :
  fetch_single_user_agent user_agent = None →
  Core.generate_comprehensive_analysis url fetch_single_user_agent
    start_time end_time timestamp fuel css js seo a11y perf user_agent
  = Ok (VDict [ ("error", VStr ("Failed to fetch page with " +:+ user_agent));
                ("url", VStr url);
                ("timestamp", VStr timestamp) ])
  ∧ Comprehensive.generate_comprehensive_analysis url None
      start_time end_time timestamp analyze
    = Ok (VDict [ ("error", VStr "Failed to fetch page");
                  ("url", VStr url) ]).
Proof.
  intros Hfetch. unfold Core.generate_comprehensive_analysis.
  rewrite Hfetch. split; reflexivity.
Qed.

Lemma fetch_failure_result_witness :
  let fetch := fun _ : string => @None Core.response_data in
  fetch "desktop_chrome" = None
  ∧ Core.generate_comprehensive_analysis "https://example.com" fetch
      1 3 "2024-01-01 00:00:00" 10
      Spec.sample_analyzer Spec.sample_analyzer
      Spec.sample_analyzer Spec.sample_analyzer
      (fun soup _ => Spec.sample_analyzer soup) "desktop_chrome"
    = Ok (VDict [ ("error", VStr "Failed to fetch page with desktop_chrome");
                  ("url", VStr "https://example.com");
                  ("timestamp", VStr "2024-01-01 00:00:00") ])
  ∧ Comprehensive.generate_comprehensive_analysis "https://example.com" None
      1 3 "2024-01-01 00:00:00" (fun _ _ count => Ok (VNone, count))
    = Ok (VDict [ ("error", VStr "Failed to fetch page");
                  ("url", VStr "https://example.com") ]).
Proof.
  intros fetch. split; [reflexivity|].
  exact (fetch_failure_result "https://example.com" "desktop_chrome"
           "2024-01-01 00:00:00" 1 3 10 fetch
           Spec.sample_analyzer Spec.sample_analyzer
           Spec.sample_analyzer Spec.sample_analyzer
           (fun soup _ => Spec.sample_analyzer soup)
           (fun _ _ count => Ok (VNone, count)) eq_refl).
Defined.

(** ** Alt-text tallies *)

Section AltText.

Import Spec.

Lemma count_if_cons {A} (p : A → bool) x l :
  count_if p (x :: l) = (if p x then 1 else 0) + count_if p l.
Proof.
  unfold count_if. simpl. destruct (p x); simpl length; lia.
Qed.

Lemma count_if_nonneg {A} (p : A → bool) l : 0 ≤ count_if p l.
Proof. unfold count_if. lia. Qed.







End AltText.





(** ** URL resolution *)

Section Links.

Import Comprehensive.

Lemma prefix_cons a s1 b s2 :
  String.prefix (String a s1) (String b s2)
  = if ascii_dec a b then String.prefix s1 s2 else false.
Proof. reflexivity. Qed.

Lemma startswith_slash href :
  Py.startswith href "/" = true → ∃ rest, href = String "/" rest.
Proof.
  unfold Py.startswith. destruct href as [|c rest]; [done|].
  rewrite prefix_cons. destruct (ascii_dec "/" c) as [<-|]; [eauto|done].
Qed.

Lemma startswith_two_slashes href :
  Py.startswith href "//" = true →
  ∃ rest, href = String "/" (String "/" rest).
Proof.
  unfold Py.startswith. destruct href as [|c [|c' rest]]; [done| |].
  - rewrite prefix_cons. destruct (ascii_dec "/" c); done.
  - rewrite !prefix_cons.
    destruct (ascii_dec "/" c) as [<-|]; [|done].
    destruct (ascii_dec "/" c') as [<-|]; [eauto|done].
Qed.

End Links.

(** C5, as the specification states it, fails for a page fetched over
    [http]: a protocol-relative reference is resolved with [https], not
    with the scheme of the page. *)
Lemma protocol_relative_ignores_source_scheme :
  let self := Spec.analyzer_of Spec.bare_html in
  let href := "//cdn.example.net/lib.js" in
  Py.startswith href "//" = true
  ∧ Comprehensive.scheme (Comprehensive.parsed self) = "http"
  ∧ Comprehensive.categorize_link self href
    = Comprehensive.NavigableLink "https://cdn.example.net/lib.js"
  ∧ Comprehensive.clean_url self href = "https://cdn.example.net/lib.js"
  ∧ Comprehensive.link_full_url self href
    ≠ Comprehensive.scheme (Comprehensive.parsed self) +:+ ":" +:+ href
  ∧ Comprehensive.clean_url self href
    ≠ Comprehensive.scheme (Comprehensive.parsed self) +:+ ":" +:+ href.
Proof. vm_compute. repeat split; congruence. Qed.

(** C5, amended.  A reference that starts with [//] is resolved by putting
    [https:] in front of it, in the link analyzer and in the network
    analyzer alike, whatever the scheme of the page; this is the scheme of
    the page when the page is an [https] page.  A reference that starts with
    a single [/] is resolved against the scheme and host of the page.  The
    link analyzer classifies the resolved URL. *)
Theorem relative_url_resolution
    (self : Comprehensive.analyzer) (raw_href href : string) :
  Py.strip raw_href = href →
  Py.startswith href "/" = true →
  let page := Comprehensive.parsed self in
  let resolved :=
    if Py.startswith href "//" then "https:" +:+ href
    else Comprehensive.scheme page +:+ "://"
         +:+ Comprehensive.netloc page +:+ href in
  Comprehensive.categorize_link self raw_href
  = Comprehensive.NavigableLink resolved
  ∧ Comprehensive.link_full_url self href = resolved
  ∧ Comprehensive.clean_url self href = resolved
  ∧ (Py.startswith href "//" = true →
     Comprehensive.is_recorded resolved = true
     ∧ (Comprehensive.scheme page = "https" →
        resolved = Comprehensive.scheme page +:+ ":" +:+ href)).
Proof.
  intros Hstrip Hslash page resolved.
  assert (Comprehensive.link_full_url self href = resolved) as Hlink.
  { unfold Comprehensive.link_full_url, resolved, page. by rewrite Hslash. }
  split; [|split; [exact Hlink|split]].
  - assert (Comprehensive.is_navigable href = true) as Hnav.
    { apply existsb_exists. exists "/". split; [|exact Hslash].
      simpl. auto. }
    unfold Comprehensive.categorize_link. rewrite Hstrip, Hlink, Hnav.
    destruct (startswith_slash href Hslash) as [rest ->]. reflexivity.
  - unfold Comprehensive.clean_url, resolved, page. by rewrite Hslash.
  - intros Htwo. unfold resolved. rewrite Htwo.
    destruct (startswith_two_slashes href Htwo) as [rest ->].
    split; [|intros ->; reflexivity].
    apply existsb_exists. exists "https://". split; [simpl; auto|].
    vm_compute. destruct rest; reflexivity.
Qed.

Lemma relative_url_resolution_witness :
  let self := Spec.analyzer_of Spec.bare_html in
  Py.strip " /about " = "/about"
  ∧ Py.startswith "/about" "/" = true
  ∧ Comprehensive.categorize_link self " /about "
    = Comprehensive.NavigableLink "http://example.com/about"
  ∧ Comprehensive.clean_url self "/about" = "http://example.com/about".
Proof.
  intros self. split; [reflexivity|]. split; [reflexivity|].
  destruct (relative_url_resolution self " /about " "/about" eq_refl eq_refl)
    as (Hlink & _ & Hclean & _).
  split; [exact Hlink | exact Hclean].
Defined.

(** ** ID analysis *)

Section Ids.

Import Comprehensive Spec.

Lemma same_ids_refl x : same_ids x x.
Proof. by repeat split. Qed.

Lemma record_no_id_same x y : same_ids x y → same_ids (record_no_id x) y.
Proof. intros (?&?&?&?&?). by repeat split. Qed.

Lemma record_id_same x y element_id :
  same_ids x y → same_ids (record_id x element_id) (record_id y element_id).
Proof.
  intros (Hu & Hd & Hq & Hw & Hl). unfold record_id, same_ids. simpl.
  rewrite Hu, Hd, Hq, Hw, Hl. by repeat split.
Qed.

(** Elements without a truthy id leave the id bookkeeping alone. *)
Lemma id_loop_same elements x y :
  same_ids x y →
  same_ids (fold_left id_step elements x)
           (fold_left record_id (omap truthy_id elements) y).
Proof.
  revert x y. induction elements as [|e elements IH]; intros x y Hxy; [done|].
  simpl. unfold id_step at 2.
  destruct (truthy_id e) as [element_id|]; simpl.
  - apply IH. by apply record_id_same.
  - apply IH. by apply record_no_id_same.
Qed.

Lemma truthy_ids_of_attributes elements ids :
  omap (fun e => get e "id") elements = ids →
  Forall (fun i => i ≠ "") ids →
  omap truthy_id elements = ids.
Proof.
  revert ids. induction elements as [|e elements IH]; intros ids; [done|].
  simpl. unfold truthy_id at 1.
  destruct (get e "id") as [[|c rest]|]; simpl.
  - intros <- Hne. by apply Forall_cons_1 in Hne as [? _].
  - intros <- Hne. apply Forall_cons_1 in Hne as [_ Hne].
    f_equal. by apply IH.
  - apply IH.
Qed.

Lemma record_id_grows analysis element_id :
  unique_ids analysis ⊆ unique_ids (record_id analysis element_id).
Proof. unfold record_id. simpl. case_bool_decide; set_solver. Qed.

Lemma id_step_grows analysis element :
  unique_ids analysis ⊆ unique_ids (id_step analysis element).
Proof.
  unfold id_step. destruct (truthy_id element); [|done].
  apply record_id_grows.
Qed.

Lemma id_loop_grows elements analysis :
  unique_ids analysis ⊆ unique_ids (fold_left id_step elements analysis).
Proof.
  revert analysis. induction elements as [|e elements IH]; intros analysis;
    [done|].
  simpl. etrans; [apply id_step_grows | apply IH].
Qed.

(** The bookkeeping after the ids [a; a; b]. *)
Lemma record_a_a_b a b :
  a ≠ b →
  let r := fold_left record_id [a; a; b] id_analysis_init in
  unique_ids r = {[a; b]}
  ∧ duplicate_ids r = {[a := 2]}
  ∧ elements_with_ids r = 3.
Proof.
  intros Hab. simpl.
  rewrite (bool_decide_eq_false_2 (a ∈ (∅ : gset string)))
    by set_solver.
  rewrite (bool_decide_eq_true_2 (a ∈ ({[a]} ∪ ∅ : gset string)))
    by set_solver.
  rewrite (bool_decide_eq_false_2 (b ∈ ({[a]} ∪ ∅ : gset string)))
    by set_solver.
  split; [set_solver|]. split; [|done].
  unfold incr_key, init_key. rewrite lookup_empty.
  apply map_eq. intros k. rewrite lookup_alter.
  destruct (decide (a = k)) as [->|Hne].
  - by rewrite !lookup_insert_eq, !lookup_singleton_eq.
  - by rewrite lookup_insert_ne, lookup_singleton_ne.
Qed.

End Ids.

(** C6. On a document whose [id] attributes are, in order, [a; a; b], ID
    analysis yields the unique ids [{a, b}] (size 2), [elements_with_ids]
    = 3 and a [duplicate_ids] mapping whose only key is [a], with value 2.
    No step of the analysis removes an id from [unique_ids]: the set only
    grows. *)
Theorem id_analysis_a_a_b
    (self : Comprehensive.analyzer) (soup : node) (a b : string) :
  Comprehensive.soup self = Some soup →
  Spec.id_attributes soup = [a; a; b] →
  a ≠ "" → b ≠ "" → a ≠ b →
  let r := Comprehensive.analyze_ids_comprehensive self in
  (Comprehensive.unique_ids r = {[a; b]}
   ∧ size (Comprehensive.unique_ids r) = 2%nat
   ∧ Comprehensive.elements_with_ids r = 3
   ∧ dom (Comprehensive.duplicate_ids r) = {[a]}
   ∧ ∃ n, Comprehensive.duplicate_ids r !! a = Some n ∧ (n = 1 ∨ n = 2))
  ∧ (∀ analysis element,
       Comprehensive.unique_ids analysis
       ⊆ Comprehensive.unique_ids (Comprehensive.id_step analysis element))
  ∧ (∀ elements analysis,
       Comprehensive.unique_ids analysis
       ⊆ Comprehensive.unique_ids
           (fold_left Comprehensive.id_step elements analysis)).
Proof.
  intros Hsoup Hids Ha Hb Hab r.
  split; [|split; [apply id_step_grows | apply id_loop_grows]].
  assert (omap Comprehensive.truthy_id (find_all soup) = [a; a; b]) as Htruthy.
  { apply truthy_ids_of_attributes; [exact Hids|]. by repeat constructor. }
  pose proof (id_loop_same (find_all soup) _ _
                (same_ids_refl Comprehensive.id_analysis_init))
    as (_ & Hd & Hu & Hw & _).
  rewrite Htruthy in Hd, Hu, Hw.
  destruct (record_a_a_b a b Hab) as (Hu' & Hd' & Hw').
  subst r. unfold Comprehensive.analyze_ids_comprehensive. rewrite Hsoup.
  rewrite Hu, Hd, Hw, Hu', Hd', Hw'.
  split; [done|]. split.
  { rewrite size_union by set_solver. by rewrite !size_singleton. }
  split; [done|]. split.
  { by rewrite dom_singleton_L. }
  exists 2. rewrite lookup_singleton_eq. auto.
Qed.

Lemma id_analysis_a_a_b_witness :
  let soup :=
    Tag "[document]" ∅
      [Tag "div" {[ "id" := "main" ]}
         [Tag "p" {[ "id" := "main" ]} [Text "one"];
          Tag "span" ∅ [];
          Tag "p" {[ "id" := "note" ]} []]] in
  let r := Comprehensive.analyze_ids_comprehensive (Spec.analyzer_of soup) in
  Spec.id_attributes soup = ["main"; "main"; "note"]
  ∧ Comprehensive.unique_ids r = {[ "main"; "note" ]}
  ∧ Comprehensive.elements_with_ids r = 3
  ∧ dom (Comprehensive.duplicate_ids r) = {[ "main" ]}.
Proof.
  intros soup r. split; [reflexivity|].
  destruct (id_analysis_a_a_b (Spec.analyzer_of soup) soup "main" "note"
              eq_refl eq_refl ltac:(discriminate) ltac:(discriminate)
              ltac:(discriminate))
    as ((Hu & _ & Hw & Hd & _) & _).
  repeat split; assumption.
Defined.
(** ** Local recovery from malformed content *)

Section Recovery.

Import Core Spec.

Lemma for_each_Ok {A S} (body : S → A → result S) (g : S → A → S) l s :
  (∀ s x, body s x = Ok (g s x)) →
  for_each l body s = Ok (fold_left g l s).
Proof.
  intros Hbody. revert s. induction l as [|x l IH]; intros s; [done|].
  simpl. rewrite Hbody. simpl. apply IH.
Qed.

(** [int] on a string raises nothing but [ValueError]. *)
Lemma int_raises_ValueError s e : Py.int s = Raise e → e = ValueError.
Proof.
  unfold Py.int.
  destruct (match Py.trim Py.int_space s with
            | String "+" r => Py.parse_digits r 0 false
            | String "-" r => Z.opp <$> Py.parse_digits r 0 false
            | _ => Py.parse_digits (Py.trim Py.int_space s) 0 false
            end); [case_bool_decide|]; congruence.
Qed.

Lemma positive_tabindex_step_Ok positive elem :
  positive_tabindex_step positive elem
  = Ok (positive + if counts_as_positive elem then 1 else 0).
Proof.
  unfold positive_tabindex_step, counts_as_positive, int_tabindex.
  destruct (get elem "tabindex") as [v|]; simpl.
  - destruct (Py.int v) as [t|e] eqn:Hint; simpl.
    + destruct (0 <? t); simpl; f_equal; lia.
    + rewrite (int_raises_ValueError v e Hint). simpl. f_equal. lia.
  - f_equal. lia.
Qed.

Lemma fold_left_count {A} (p : A → bool) l (n : Z) :
  fold_left (fun n x => n + if p x then 1 else 0) l n = n + count_if p l.
Proof.
  revert n. induction l as [|x l IH]; intros n; simpl.
  - unfold count_if. simpl. lia.
  - rewrite IH, count_if_cons. lia.
Qed.

Lemma assoc_in_keys key items :
  key ∈ items.*1 ↔ is_Some (assoc key items).
Proof.
  induction items as [|[k v] items IH]; simpl.
  - split; [by intros ?%elem_of_nil | by intros [? ?]].
  - case_bool_decide as Hk; simpl in Hk.
    + subst k. split; [eauto | left].
    + rewrite elem_of_cons, IH. naive_solver.
Qed.

Section WithDecoder.

Variable json_loads : string → result value.

(** One turn of the Schema.org loop: the exception the block lets
    through, or the types with the block's entry added. *)
Lemma schema_types_step_eq schema_types script :
  schema_types_step json_loads schema_types script
  = match uncaught json_loads script with
    | Some e => Raise e
    | None => Ok (schema_types ++ schema_entry json_loads script)
    end.
Proof.
  unfold schema_types_step, schema_entry, uncaught.
  destruct (string_of script) as [[|c s']|]; simpl;
    try by rewrite app_nil_r.
  destruct (json_loads (String c s'))
    as [[ | b | z | f | s | items | items | members ]|e]; simpl;
    try by rewrite app_nil_r.
  - destruct (Py.contains "@type" s); simpl; by rewrite app_nil_r.
  - destruct (existsb _ items); simpl; by rewrite app_nil_r.
  - pose proof (assoc_in_keys "@type" items) as Hkeys.
    case_bool_decide as Hin; simpl.
    + apply Hkeys in Hin as [ty ->]. done.
    + destruct (assoc "@type" items) as [ty|]; [|by rewrite app_nil_r].
      exfalso. apply Hin, Hkeys. eauto.
  - case_bool_decide; simpl; by rewrite app_nil_r.
  - case_bool_decide; [by rewrite app_nil_r | done].
Qed.

Lemma schema_types_step_raises schema_types script c s' e :
  string_of script = Some (String c s') →
  json_loads (String c s') = Raise e →
  e ∉ [JSONDecodeError; TypeError] →
  schema_types_step json_loads schema_types script = Raise e.
Proof.
  intros Hstring Hloads He. rewrite schema_types_step_eq.
  unfold uncaught. rewrite Hstring, Hloads.
  by case_bool_decide.
Qed.

(** The loop returns exactly when no block lets an exception through,
    and then with the entries of the blocks in document order. *)
Lemma schema_loop_returns scripts schema_types r :
  for_each scripts (schema_types_step json_loads) schema_types = Ok r
  ↔ Forall (fun script => uncaught json_loads script = None) scripts
    ∧ r = schema_types
          ++ flat_map (schema_entry json_loads) scripts.
Proof.
  revert schema_types.
  induction scripts as [|script scripts IH]; intros st; simpl.
  - rewrite app_nil_r. split.
    + intros [= <-]. by split.
    + by intros [_ ->].
  - rewrite schema_types_step_eq.
    destruct (uncaught json_loads script) as [e|] eqn:Hu; simpl.
    + split; [done|]. intros [Hall _].
      apply Forall_cons in Hall as [Hscript _]. congruence.
    + rewrite IH, Forall_cons, app_assoc. naive_solver.
Qed.

Lemma length_schema_entries scripts :
  (length (flat_map (schema_entry json_loads) scripts)
   ≤ length scripts)%nat.
Proof.
  induction scripts as [|script scripts IH]; [done|].
  simpl. rewrite length_app.
  assert (length (schema_entry json_loads script) ≤ 1)%nat.
  { unfold schema_entry. repeat case_match; simpl; lia. }
  lia.
Qed.

End WithDecoder.

End Recovery.

(** C8. A JSON-LD block that is not valid JSON is not always skipped: on
    the page whose only JSON-LD block holds a thousand opening brackets,
    with a decoder that gives up on that text with [RecursionError], as
    CPython's does, the exception is not among those the loop catches and
    the Schema.org pass raises it to its caller. *)
Theorem deep_json_ld_block_raises (json_loads : string → result value) :
  json_loads Spec.deep_json = Raise RecursionError →
  Core.schema_types_step json_loads []
    (Tag "script" {[ "type" := "application/ld+json" ]}
       [Text Spec.deep_json])
  = Raise RecursionError
  ∧ Core.seo_schema_org json_loads Spec.deep_json_page
    = Raise RecursionError.
Proof.
  intros Hdeep.
  assert (Core.schema_types_step json_loads []
            (Tag "script" {[ "type" := "application/ld+json" ]}
               [Text Spec.deep_json])
          = Raise RecursionError) as Hstep.
  { apply (schema_types_step_raises _ _ _
             "[" (Spec.replicate_char 999 "["));
      [reflexivity | exact Hdeep | set_solver]. }
  split; [exact Hstep|].
  unfold Core.seo_schema_org.
  change (Core.json_ld_scripts Spec.deep_json_page)
    with [Tag "script" {[ "type" := "application/ld+json" ]}
            [Text Spec.deep_json]].
  cbn [for_each]. by rewrite Hstep.
Qed.

Lemma deep_json_ld_block_raises_witness :
  Spec.sample_decoder Spec.deep_json = Raise RecursionError
  ∧ Core.seo_schema_org Spec.sample_decoder Spec.deep_json_page
    = Raise RecursionError.
Proof.
  split.
  - vm_compute. reflexivity.
  - apply (deep_json_ld_block_raises Spec.sample_decoder).
    vm_compute. reflexivity.
Defined.

(** * Further properties *)

(** ** Strings *)

Section Strings.

Lemma prefix_empty s : String.prefix "" s = true.
Proof. by destruct s. Qed.

Lemma prefix_app_l a b s :
  String.prefix (a +:+ b) s = true → String.prefix a s = true.
Proof.
  revert s. induction a as [|c a IH]; intros s; [by rewrite prefix_empty|].
  destruct s as [|d s]; [done|].
  change (String c a +:+ b) with (String c (a +:+ b)).
  rewrite !prefix_cons. destruct (ascii_dec c d); [apply IH|done].
Qed.

Lemma contains_unfold sub s :
  Py.contains sub s
  = if String.prefix sub s then true
    else match s with
         | EmptyString => false
         | String _ s' => Py.contains sub s'
         end.
Proof. by destruct s. Qed.

(** A string that contains [a ++ b] contains [a]. *)
Lemma contains_app_l a b s :
  Py.contains (a +:+ b) s = true → Py.contains a s = true.
Proof.
  induction s as [|c s IH]; rewrite (contains_unfold (a +:+ b)),
    (contains_unfold a).
  - destruct (String.prefix (a +:+ b) "") eqn:Hp; [|done].
    by rewrite (prefix_app_l _ _ _ Hp).
  - destruct (String.prefix (a +:+ b) (String c s)) eqn:Hp.
    + by rewrite (prefix_app_l _ _ _ Hp).
    + intros H. rewrite (IH H). by destruct (String.prefix a _).
Qed.

Lemma take_length n s : (String.length (Py.take n s) ≤ n)%nat.
Proof.
  revert s. induction n as [|n IH]; intros [|c s]; simpl; try lia.
  specialize (IH s). lia.
Qed.

Lemma take_prefix n s : String.prefix (Py.take n s) s = true.
Proof.
  revert s. induction n as [|n IH]; intros [|c s]; try done.
  change (Py.take (S n) (String c s)) with (String c (Py.take n s)).
  rewrite prefix_cons. destruct (ascii_dec c c); [apply IH|done].
Qed.

Lemma take_short n s :
  (String.length s ≤ n)%nat → Py.take n s = s.
Proof.
  revert s. induction n as [|n IH]; intros [|c s]; simpl; try done; [lia|].
  intros H. f_equal. apply IH. lia.
Qed.

End Strings.

(** ** Security headers, continued *)

Section SecurityDetails.

Import Core Spec.

Lemma scan_headers_present response_headers table st :
  (fold_left (scan_header response_headers) table st).2
  = st.2 ++ omap (fun e => (fun v => (e.1, Py.take 200 v))
                           <$> response_headers !! e.1) table.
Proof.
  revert st. induction table as [|e table IH]; intros st; simpl.
  - by rewrite app_nil_r.
  - rewrite IH. unfold scan_header.
    destruct (response_headers !! e.1) as [v|]; simpl; [|done].
    by rewrite <- app_assoc.
Qed.

Lemma analyze_security_headers_present response_headers :
  headers_present (analyze_security_headers response_headers)
  = omap (fun e => (fun v => (e.1, Py.take 200 v))
                   <$> response_headers !! e.1) important_headers.
Proof.
  unfold analyze_security_headers, scan_headers.
  pose proof (scan_headers_present response_headers important_headers
                (0, [])) as H.
  destruct (fold_left _ _ _) as [actual present]. simpl in *. exact H.
Qed.

Lemma present_keys (g : string → string) (h : gmap string string)
    (table : list (string * Z)) :
  (omap (fun e => (fun v => (e.1, g v)) <$> h !! e.1) table).*1
  = List.filter (fun name => bool_decide (is_Some (h !! name))) table.*1.
Proof.
  induction table as [|e table IH]; [done|].
  simpl. destruct (h !! e.1) as [v|]; simpl; [f_equal|]; exact IH.
Qed.

Lemma present_values (g : string → string) (h : gmap string string)
    (table : list (string * Z)) name v :
  (name, v) ∈ omap (fun e => (fun v => (e.1, g v)) <$> h !! e.1) table →
  ∃ full, h !! name = Some full ∧ v = g full.
Proof.
  intros Hin. apply list_elem_of_omap in Hin as (e & _ & He).
  apply fmap_Some in He as (full & Hfull & Heq).
  injection Heq as -> ->. eauto.
Qed.

Lemma points_mono (h1 h2 : gmap string string) table :
  Forall (fun e => 0 ≤ e.2) table →
  (∀ header, is_Some (h1 !! header) → is_Some (h2 !! header)) →
  points h1 table ≤ points h2 table.
Proof.
  intros Hpos Hsub. induction Hpos as [|e table He _ IH]; simpl; [done|].
  specialize (Hsub e.1). repeat case_bool_decide; try lia. tauto.
Qed.

Lemma score_of_mono (a b : Z) :
  0 ≤ a ≤ b → b ≤ 80 → a mod 5 = 0 → b mod 5 = 0 →
  (score_of a 80 <=? score_of b 80)%float = true.
Proof.
  intros Hab Hb Ha5 Hb5.
  assert (∃ k : nat, (k ≤ 16)%nat ∧ a = 5 * Z.of_nat k) as (i & Hi & ->).
  { pose proof (Z.div_mod a 5 ltac:(lia)) as Hdiv.
    rewrite Ha5 in Hdiv. exists (Z.to_nat (a / 5)). lia. }
  assert (∃ k : nat, (k ≤ 16)%nat ∧ b = 5 * Z.of_nat k) as (j & Hj & ->).
  { pose proof (Z.div_mod b 5 ltac:(lia)) as Hdiv.
    rewrite Hb5 in Hdiv. exists (Z.to_nat (b / 5)). lia. }
  assert (i ≤ j)%nat as Hij by lia. clear Hab Hb Ha5 Hb5.
  do 17 (destruct j as [|j];
         [do 17 (destruct i as [|i]; [vm_compute; reflexivity || lia|]); lia|]).
  lia.
Qed.

End SecurityDetails.

(** X1. The [headers_present] mapping lists the weighted headers that are
    keys of the response headers, in the order of the table, each with its
    value cut to at most 200 characters; a value of at most 200 characters
    is kept whole. *)
Theorem headers_present_truncated (response_headers : gmap string string) :
  let present :=
    Core.headers_present (Core.analyze_security_headers response_headers) in
  present.*1
  = List.filter (fun name => bool_decide (is_Some (response_headers !! name)))
      Core.important_headers.*1
  ∧ ∀ name v,
      (name, v) ∈ present →
      ∃ full, response_headers !! name = Some full
              ∧ v = Py.take 200 full
              ∧ (String.length v ≤ 200)%nat
              ∧ String.prefix v full = true
              ∧ ((String.length full ≤ 200)%nat → v = full).
Proof.
  intros present. subst present.
  rewrite analyze_security_headers_present. split.
  - apply (present_keys (Py.take 200)).
  - intros name v Hin.
    destruct (present_values (Py.take 200) _ _ _ _ Hin) as (full & Hfull & ->).
    exists full.
    split; [exact Hfull|]. split; [reflexivity|].
    split; [apply take_length|]. split; [apply take_prefix|].
    apply take_short.
Qed.

(** X2. Adding response headers never lowers the security score. *)
Theorem security_score_monotone (h1 h2 : gmap string string) :
  dom h1 ⊆ dom h2 →
  (Core.security_score (Core.analyze_security_headers h1)
   <=? Core.security_score (Core.analyze_security_headers h2))%float = true.
Proof.
  intros Hsub. rewrite !analyze_security_headers_score, total_possible_score_eq.
  pose proof important_headers_fivefold as Hfive.
  pose proof (points_bounds h1 _ Hfive) as (Hb1 & Hm1 & _).
  pose proof (points_bounds h2 _ Hfive) as (Hb2 & Hm2 & _).
  change (Core.sum_scores Core.important_headers) with 80 in Hb1, Hb2.
  apply score_of_mono; try lia; try done.
  split; [lia|]. apply points_mono.
  - eapply Forall_impl; [exact Hfive|]. simpl. intros e [? _]. lia.
  - intros header Hin. apply elem_of_dom, Hsub, elem_of_dom, Hin.
Qed.

Lemma security_score_monotone_witness :
  let h1 : gmap string string := {[ "X-Frame-Options" := "DENY" ]} in
  let h2 : gmap string string :=
    {[ "X-Frame-Options" := "DENY";
       "Content-Security-Policy" := "default-src 'self'" ]} in
  dom h1 ⊆ dom h2
  ∧ (Core.security_score (Core.analyze_security_headers h1)
     <=? Core.security_score (Core.analyze_security_headers h2))%float = true.
Proof.
  intros h1 h2.
  assert (dom h1 ⊆ dom h2) as Hsub.
  { apply (bool_decide_unpack _). vm_compute. exact I. }
  split; [exact Hsub | exact (security_score_monotone h1 h2 Hsub)].
Defined.

(** X3. The CSP block is present exactly when the response has a
    [Content-Security-Policy] header, and then counts one directive more
    than the policy has semicolons; the cookie block is present exactly
    when the response has a [Set-Cookie] header, and its [samesite_strict]
    and [samesite_lax] flags are only set together with [samesite]. *)
Theorem csp_and_cookie_analysis (response_headers : gmap string string) :
  let s := Core.analyze_security_headers response_headers in
  (Core.csp s = None ↔ response_headers !! "Content-Security-Policy" = None)
  ∧ (∀ c, Core.csp s = Some c →
          ∃ policy,
            response_headers !! "Content-Security-Policy" = Some policy
            ∧ Core.directives c = 1 + Z.of_nat (Py.count_char ";" policy)
            ∧ 1 ≤ Core.directives c)
  ∧ (Core.cookies s = None ↔ response_headers !! "Set-Cookie" = None)
  ∧ (∀ c, Core.cookies s = Some c →
          (Core.samesite_strict c = true → Core.samesite c = true)
          ∧ (Core.samesite_lax c = true → Core.samesite c = true)).
Proof.
  intros s. subst s. unfold Core.analyze_security_headers.
  destruct (Core.scan_headers _ _) as [actual present]. simpl.
  split; [|split; [|split]].
  - destruct (response_headers !! "Content-Security-Policy"); simpl;
      split; done.
  - intros c.
    destruct (response_headers !! "Content-Security-Policy") as [policy|];
      simpl; [|done].
    intros [= <-]. exists policy. simpl. repeat split; lia.
  - destruct (response_headers !! "Set-Cookie"); simpl; split; done.
  - intros c.
    destruct (response_headers !! "Set-Cookie") as [cookie|]; simpl; [|done].
    intros [= <-]. simpl. split.
    + apply (contains_app_l "SameSite" "=Strict").
    + apply (contains_app_l "SameSite" "=Lax").
Qed.

(** ** DOM complexity, continued *)

Section DomCounts.

Import Core Spec.

Lemma count_if_split {A} (p : A → bool) l :
  count_if p l + count_if (fun x => negb (p x)) l = Z.of_nat (length l).
Proof.
  induction l as [|x l IH]; [done|].
  rewrite !count_if_cons. simpl length. destruct (p x); simpl; lia.
Qed.

Lemma count_if_pos {A} (p : A → bool) x l :
  x ∈ l → p x = true → 1 ≤ count_if p l.
Proof.
  intros Hx Hp. induction Hx as [x l | x y l Hx IH]; rewrite count_if_cons.
  - rewrite Hp. pose proof (count_if_nonneg p l). lia.
  - specialize (IH Hp). destruct (p y); lia.
Qed.

Lemma length_flat_map_elem {A B} (f : A → list B) x l :
  x ∈ l → (length (f x) ≤ length (flat_map f l))%nat.
Proof.
  intros Hx. induction Hx as [x l | x y l Hx IH]; simpl;
    rewrite length_app; lia.
Qed.

(** A tag below [e] has fewer tags below it than [e] has. *)
Lemma find_all_length_lt e c :
  c ∈ find_all e → (length (find_all c) < length (find_all e))%nat.
Proof.
  revert c. induction e as [s | name attrs contents IH] using node_ind';
    intros c Hc.
  - by apply elem_of_nil in Hc.
  - apply elem_of_find_all in Hc as (x & Hx & Htag & Hc).
    pose proof (length_flat_map_elem
                  (fun c => if is_tag c then c :: find_all c else [])
                  x contents Hx) as Hlen.
    cbv beta in Hlen. rewrite Htag in Hlen.
    change (length (x :: find_all x)) with (S (length (find_all x)))
      in Hlen.
    change (flat_map _ contents) with (find_all (Tag name attrs contents))
      in Hlen.
    destruct Hc as [->|Hc]; [lia|].
    rewrite Forall_forall in IH. specialize (IH x Hx c Hc). lia.
Qed.

(** The height of an element is at most the number of tags below it. *)
Lemma height_le_length e : (height e ≤ length (find_all e))%nat.
Proof.
  remember (height e) as n eqn:Hn. revert e Hn.
  induction n as [|n IH]; intros e Hn; [lia|].
  destruct (find_all_height_top e) as [[_ H0] | (c & Hc & Hh)]; [lia|].
  assert (n = height c) as Hc' by lia.
  specialize (IH c Hc'). apply find_all_length_lt in Hc. lia.
Qed.

(** Below an element that has tags below it there is a tag with none. *)
Lemma find_all_leaf e :
  find_all e ≠ [] → ∃ c, c ∈ find_all e ∧ find_all c = [].
Proof.
  induction e as [s | name attrs contents IH] using node_ind'; [done|].
  intros Hne.
  destruct (find_all (Tag name attrs contents)) as [|c0 cs] eqn:Hall;
    [done|].
  assert (c0 ∈ find_all (Tag name attrs contents)) as Hc0
    by (rewrite Hall; left).
  apply elem_of_find_all in Hc0 as (x & Hx & Htag & _).
  destruct (find_all x) as [|y ys] eqn:Hx_all.
  - exists x. split; [|done]. rewrite <- Hall.
    apply elem_of_find_all. exists x. auto.
  - rewrite Forall_forall in IH.
    destruct (IH x Hx) as (c & Hc & Hleaf); [by rewrite Hx_all|].
    exists c. split; [|done]. rewrite <- Hall.
    apply elem_of_find_all. exists x. auto.
Qed.

Lemma soup_html_elem soup html :
  soup_html soup = Some html → html ∈ find_all soup.
Proof.
  unfold soup_html, find_all_named. intros Hhead.
  apply head_Some_elem_of in Hhead.
  by apply list_elem_of_filter in Hhead as [_ ?].
Qed.

End DomCounts.

(** X4. Every element is either a leaf or a branch:
    [leaf_nodes + branch_nodes = total_elements].  A document with at least
    one element has at least one leaf, and its [max_depth] is below its
    number of elements; a document without elements has depth and score
    0. *)
Theorem dom_complexity_counts (fuel : nat) (soup : node) :
  (∀ html, soup_html soup = Some html → (Spec.height html < fuel)%nat) →
  ∃ r, Core.calculate_dom_complexity fuel soup = Ok r
       ∧ Core.leaf_nodes r + Core.branch_nodes r = Core.total_elements r
       ∧ 0 ≤ Core.branch_nodes r
       ∧ 0 ≤ Core.max_depth r
       ∧ (0 < Core.total_elements r →
          1 ≤ Core.leaf_nodes r
          ∧ Core.max_depth r < Core.total_elements r)
       ∧ (Core.total_elements r = 0 →
          Core.max_depth r = 0 ∧ Core.complexity_score r = 0).
Proof.
  intros Hfuel. unfold Core.calculate_dom_complexity.
  assert (count_if (fun e => negb (Core.has_children e)) (find_all soup)
          + count_if Core.has_children (find_all soup)
          = Z.of_nat (length (find_all soup))) as Hsplit.
  { rewrite Z.add_comm. apply count_if_split. }
  assert (0 < Z.of_nat (length (find_all soup)) →
          1 ≤ count_if (fun e => negb (Core.has_children e)) (find_all soup))
    as Hleaf.
  { intros Hpos.
    destruct (find_all_leaf soup) as (c & Hc & Hnone).
    { intros Hnil. rewrite Hnil in Hpos. simpl in Hpos. lia. }
    apply (count_if_pos _ c); [done|].
    unfold Core.has_children. by rewrite Hnone. }
  pose proof (count_if_nonneg Core.has_children (find_all soup)) as Hbranch.
  destruct (soup_html soup) as [html|] eqn:Hhtml.
  - rewrite get_tree_depth_height by auto.
    pose proof (soup_html_elem soup html Hhtml) as Hin.
    pose proof (find_all_length_lt soup html Hin) as Hlt.
    pose proof (height_le_length html) as Hle.
    eexists. split; [reflexivity|]. simpl.
    repeat split; try lia; auto.
  - eexists. split; [reflexivity|]. simpl.
    repeat split; try lia; auto.
Qed.

Lemma dom_complexity_counts_witness :
  (∀ html, soup_html Spec.sample_soup = Some html →
           (Spec.height html < 4)%nat)
  ∧ ∃ r, Core.calculate_dom_complexity 4 Spec.sample_soup = Ok r
         ∧ Core.leaf_nodes r + Core.branch_nodes r = Core.total_elements r.
Proof.
  assert (∀ html, soup_html Spec.sample_soup = Some html →
                  (Spec.height html < 4)%nat) as Hfuel.
  { intros html Hhtml. vm_compute in Hhtml. injection Hhtml as <-.
    vm_compute. lia. }
  split; [exact Hfuel|].
  destruct (dom_complexity_counts 4 Spec.sample_soup Hfuel)
    as (r & Hr & Hsum & _).
  exists r. split; assumption.
Defined.

(** X14. [count_total_statistics] adds to the count it is given, never
    counts below zero, counts a mapping entry as 1 plus the count of its
    value, and counts two mappings put together as the sum of their
    counts. *)
Theorem count_total_statistics_additive :
  (∀ obj count,
     Core.count_total_statistics obj count
     = count + Core.count_total_statistics obj 0)
  ∧ (∀ obj, 0 ≤ Core.count_total_statistics obj 0)
  ∧ (∀ key v items,
       Core.count_total_statistics (VDict ((key, v) :: items)) 0
       = 1 + Core.count_total_statistics v 0
         + Core.count_total_statistics (VDict items) 0)
  ∧ (∀ items1 items2,
       Core.count_total_statistics (VDict (items1 ++ items2)) 0
       = Core.count_total_statistics (VDict items1) 0
         + Core.count_total_statistics (VDict items2) 0)
  ∧ (∀ items1 items2,
       Core.count_total_statistics (VList (items1 ++ items2)) 0
       = Core.count_total_statistics (VList items1) 0
         + Core.count_total_statistics (VList items2) 0).
Proof.
  assert (∀ obj, 0 ≤ Spec.structural_count obj) as Hnonneg.
  { induction obj as [ | b | z | f | s | items IH | items IH | members ]
      using value_ind'; simpl; try lia.
    - induction IH as [|v items Hv _ IHl]; simpl in *; lia.
    - induction IH as [|kv items Hv _ IHl]; simpl in *; lia. }
  split; [|split; [|split; [|split]]].
  - intros obj count. rewrite !count_total_statistics_structural. lia.
  - intros obj. rewrite count_total_statistics_structural.
    specialize (Hnonneg obj). lia.
  - intros key v items. rewrite !count_total_statistics_structural.
    simpl. lia.
  - intros items1 items2. rewrite !count_total_statistics_structural.
    simpl. rewrite length_app, foldr_app.
    induction items1 as [|kv items1 IH]; simpl in *; lia.
  - intros items1 items2. rewrite !count_total_statistics_structural.
    simpl. rewrite length_app, foldr_app.
    induction items1 as [|kv items1 IH]; simpl in *; lia.
Qed.

(** ** CSS selectors *)

Section Css.

Import Core Spec.

Lemma bem_step_sum b cls :
  blocks (bem_step b cls) + Core.elements (bem_step b cls)
  + modifiers (bem_step b cls)
  = blocks b + Core.elements b + modifiers b
    + (if bem_like cls then 1 else 0).
Proof.
  unfold bem_step, bem_like.
  destruct (Py.contains "__" cls) eqn:Hu; simpl.
  - rewrite orb_true_r. lia.
  - rewrite orb_false_r.
    destruct (Py.contains "--" cls) eqn:Hd; simpl.
    + rewrite (contains_app_l "-" "-" cls Hd). lia.
    + destruct (Py.contains "-" cls); simpl; lia.
Qed.

Lemma is_atomic_short_or_hidden cls : is_atomic cls = short_or_hidden cls.
Proof.
  unfold is_atomic, short_or_hidden.
  destruct (Py.len cls <=? 5) eqn:Hlen; [done|]. simpl.
  apply bool_decide_ext. split.
  - intros Hin. repeat (apply elem_of_cons in Hin as [->|Hin]);
      try done. by apply elem_of_nil in Hin.
  - intros ->. do 4 right. left.
Qed.

Lemma class_loop tokens st :
  let r := fold_left class_step tokens st in
  class_selectors r = list_to_set tokens ∪ class_selectors st
  ∧ blocks (bem r) + Core.elements (bem r) + modifiers (bem r)
    = blocks (bem st) + Core.elements (bem st) + modifiers (bem st)
      + count_if bem_like tokens
  ∧ atomic_css_patterns r
    = atomic_css_patterns st + count_if short_or_hidden tokens.
Proof.
  revert st. induction tokens as [|cls tokens IH]; intros st.
  - simpl. unfold count_if. simpl. split; [set_solver|lia].
  - destruct (IH (class_step st cls)) as (Hs & Hb & Ha).
    simpl. rewrite Hs, Hb, Ha, !count_if_cons.
    unfold class_step. simpl.
    rewrite bem_step_sum, is_atomic_short_or_hidden.
    split; [set_solver|]. split; [lia|].
    destruct (short_or_hidden cls); lia.
Qed.

Lemma size_list_to_set_le (l : list string) :
  (size (list_to_set l : gset string) ≤ length l)%nat.
Proof.
  induction l as [|x l IH].
  - rewrite list_to_set_nil, size_empty. done.
  - rewrite list_to_set_cons, size_union_alt, size_singleton. simpl length.
    pose proof (subseteq_size (list_to_set l ∖ {[x]})
                  (list_to_set l : gset string) ltac:(set_solver)).
    lia.
Qed.

End Css.

(** X5. The BEM score counts the class tokens that contain a hyphen or a
    double underscore, each once; the atomic-CSS score counts the tokens of
    at most five characters and the token [hidden]; [unique_classes] is the
    number of different tokens.  None of the three exceeds the number of
    class tokens in the document. *)
Theorem css_selector_scores (soup : node) :
  let r := Core.analyze_css_selectors soup in
  let tokens := Core.class_tokens soup in
  Core.bem_score r = count_if Spec.bem_like tokens
  ∧ Core.atomic_css_score r = count_if Spec.short_or_hidden tokens
  ∧ Core.unique_classes r
    = Z.of_nat (size (list_to_set tokens : gset string))
  ∧ 0 ≤ Core.bem_score r ≤ Z.of_nat (length tokens)
  ∧ 0 ≤ Core.atomic_css_score r ≤ Z.of_nat (length tokens)
  ∧ 0 ≤ Core.unique_classes r ≤ Z.of_nat (length tokens).
Proof.
  intros r tokens. subst r. unfold Core.analyze_css_selectors.
  fold tokens.
  edestruct (class_loop tokens) as (Hs & Hb & Ha). simpl.
  rewrite Hs, Hb, Ha. simpl.
  rewrite union_empty_r_L.
  pose proof (count_if_nonneg Spec.bem_like tokens).
  pose proof (count_if_nonneg Spec.short_or_hidden tokens).
  pose proof (count_if_split Spec.bem_like tokens).
  pose proof (count_if_split Spec.short_or_hidden tokens).
  pose proof (count_if_nonneg (fun x => negb (Spec.bem_like x)) tokens).
  pose proof (count_if_nonneg (fun x => negb (Spec.short_or_hidden x)) tokens).
  pose proof (size_list_to_set_le tokens).
  repeat split; lia.
Qed.

(** ** JavaScript *)

Section JavaScript.

Import Core Spec.

Lemma detect_step_NoDup content detected entry :
  NoDup detected → NoDup (detect_step content detected entry).
Proof.
  intros Hnd. unfold detect_step.
  destruct (has_signature content entry.2); [|done].
  case_bool_decide as Hin; [done|].
  apply NoDup_app. split; [done|]. split; [|apply NoDup_singleton].
  intros x Hx ->%list_elem_of_singleton. done.
Qed.

Lemma detect_loop content table detected :
  let r := fold_left (detect_step content) table detected in
  (NoDup detected → NoDup r)
  ∧ ∀ f, f ∈ r ↔ f ∈ detected
                 ∨ ∃ sigs, (f, sigs) ∈ table
                           ∧ has_signature content sigs = true.
Proof.
  revert detected. induction table as [|entry table IH]; intros detected.
  - simpl. split; [done|]. intros f. split; [auto|].
    intros [?|(sigs & []%elem_of_nil & _)]. done.
  - destruct (IH (detect_step content detected entry)) as [Hnd Hmem].
    simpl. split.
    + intros H. by apply Hnd, detect_step_NoDup.
    + intros f. rewrite Hmem. unfold detect_step.
      destruct entry as [name sigs0]. simpl.
      destruct (has_signature content sigs0) eqn:Hsig.
      * case_bool_decide as Hin.
        -- split.
           ++ intros [?|(sigs & Hs & Hc)]; [by left|].
              right. exists sigs. split; [by right|done].
           ++ intros [?|(sigs & Hs & Hc)]; [by left|].
              apply elem_of_cons in Hs as [[= -> ->]|Hs]; [by left|].
              right. eauto.
        -- rewrite elem_of_app, list_elem_of_singleton. split.
           ++ intros [[?| ->]|(sigs & Hs & Hc)]; [by left| |].
              ** right. exists sigs0. split; [left|done].
              ** right. exists sigs. split; [by right|done].
           ++ intros [?|(sigs & Hs & Hc)]; [by left; left|].
              apply elem_of_cons in Hs as [[= -> ->]|Hs];
                [by left; right|].
              right. eauto.
      * split.
        -- intros [?|(sigs & Hs & Hc)]; [by left|].
           right. exists sigs. split; [by right|done].
        -- intros [?|(sigs & Hs & Hc)]; [by left|].
           apply elem_of_cons in Hs as [[= -> ->]|Hs]; [congruence|].
           right. eauto.
Qed.

Lemma script_step_invariant st n script :
  js_invariant st n → js_invariant (script_step st script) (n + 1).
Proof.
  unfold js_invariant, script_step, bump, Py.len.
  intros (?&?&?&?&?&?&?&?).
  destruct (Py.truthy (get script "src")); simpl;
    repeat case_match; repeat split; lia.
Qed.

Lemma script_step_frameworks st script :
  frameworks_detected (script_step st script)
  = if Py.truthy (get script "src") then frameworks_detected st
    else fold_left (detect_step (string_or_empty script))
           framework_signatures (frameworks_detected st).
Proof. unfold script_step. by destruct (Py.truthy _). Qed.

Lemma script_step_total st script :
  total_scripts (script_step st script) = total_scripts st.
Proof. unfold script_step. by destruct (Py.truthy _). Qed.

Lemma script_loop scripts st n :
  js_invariant st n →
  let r := fold_left script_step scripts st in
  js_invariant r (n + Z.of_nat (length scripts))
  ∧ total_scripts r = total_scripts st
  ∧ (NoDup (frameworks_detected st) → NoDup (frameworks_detected r))
  ∧ ∀ f, f ∈ frameworks_detected r
         ↔ f ∈ frameworks_detected st
           ∨ ∃ script sigs,
               script ∈ scripts ∧ is_inline script = true
               ∧ (f, sigs) ∈ framework_signatures
               ∧ has_signature (string_or_empty script) sigs = true.
Proof.
  revert st n. induction scripts as [|script scripts IH]; intros st n Hinv;
    cbv zeta.
  - simpl. rewrite Z.add_0_r. split; [done|]. split; [done|].
    split; [done|]. intros f. split; [auto|].
    intros [?|(s & sigs & []%elem_of_nil & _)]. done.
  - destruct (IH (script_step st script) (n + 1)
                (script_step_invariant st n script Hinv))
      as (Hinv' & Htotal & Hnd & Hmem).
    simpl. split; [|split; [|split]].
    + replace (n + Z.of_nat (S (length scripts)))
        with (n + 1 + Z.of_nat (length scripts)) by lia. exact Hinv'.
    + rewrite Htotal. apply script_step_total.
  + intros H. apply Hnd. rewrite script_step_frameworks.
    destruct (Py.truthy _); [done|]. by apply detect_loop.
  + intros f. rewrite Hmem, script_step_frameworks.
    clear IH Hinv' Htotal Hnd Hmem.
    destruct (Py.truthy (get script "src")) eqn:Hsrc.
    * split.
      -- intros [?|(s & sigs & Hs & Hrest)]; [by left|].
         right. exists s, sigs. split; [by right|done].
      -- intros [?|(s & sigs & Hs & Hin & Hrest)]; [by left|].
         apply elem_of_cons in Hs as [->|Hs].
         ++ unfold is_inline in Hin. rewrite Hsrc in Hin. done.
         ++ right. exists s, sigs. auto.
    * pose proof (detect_loop (string_or_empty script)
                    framework_signatures (frameworks_detected st))
        as [_ Hdet].
      rewrite Hdet. split.
      -- intros [[?|(sigs & Hs & Hc)]|(s & sigs & Hs & Hrest)].
         ++ by left.
         ++ right. exists script, sigs. split; [left|].
            unfold is_inline. by rewrite Hsrc.
         ++ right. exists s, sigs. split; [by right|done].
      -- intros [?|(s & sigs & Hs & Hin & Hf & Hc)]; [by left; left|].
         apply elem_of_cons in Hs as [->|Hs].
         ++ left. right. eauto.
         ++ right. exists s, sigs. auto.
Qed.

Lemma script_loop_total scripts st :
  total_scripts (fold_left script_step scripts st) = total_scripts st.
Proof.
  revert st. induction scripts as [|script scripts IH]; intros st; [done|].
  simpl. rewrite IH. apply script_step_total.
Qed.

End JavaScript.

(** X6. Every script is counted once as inline or as external;
    [async], [defer], [module] and [nomodule] scripts are counted among the
    external ones and minified scripts among the inline ones.  The detected
    frameworks hold no name twice, and hold a name exactly when some inline
    script contains one of the signatures of that framework. *)
Theorem javascript_counts (soup : node) :
  let r := Core.analyze_javascript_complexity soup in
  let scripts := find_all_named soup "script" in
  Core.total_scripts r = Z.of_nat (length scripts)
  ∧ Core.inline_scripts r + Core.external_scripts r = Core.total_scripts r
  ∧ 0 ≤ Core.inline_scripts r
  ∧ 0 ≤ Core.async_scripts r ≤ Core.external_scripts r
  ∧ 0 ≤ Core.defer_scripts r ≤ Core.external_scripts r
  ∧ 0 ≤ Core.module_scripts r ≤ Core.external_scripts r
  ∧ 0 ≤ Core.nomodule_scripts r ≤ Core.external_scripts r
  ∧ 0 ≤ Core.minified_scripts r ≤ Core.inline_scripts r
  ∧ 0 ≤ Core.total_js_size r
  ∧ NoDup (Core.frameworks_detected r)
  ∧ ∀ f, f ∈ Core.frameworks_detected r
         ↔ ∃ script sigs,
             script ∈ scripts ∧ Spec.is_inline script = true
             ∧ (f, sigs) ∈ Core.framework_signatures
             ∧ Core.has_signature (Spec.string_or_empty script) sigs = true.
Proof.
  intros r scripts. subst r. unfold Core.analyze_javascript_complexity.
  fold scripts.
  destruct (script_loop scripts
              {| Core.total_scripts := Z.of_nat (length scripts);
                 Core.inline_scripts := 0; Core.external_scripts := 0;
                 Core.total_js_size := 0; Core.minified_scripts := 0;
                 Core.async_scripts := 0; Core.defer_scripts := 0;
                 Core.module_scripts := 0; Core.nomodule_scripts := 0;
                 Core.frameworks_detected := [] |} 0)
    as (Hinv & Htotal & Hnd & Hmem).
  { unfold Spec.js_invariant. simpl. repeat split; lia. }
  rewrite Z.add_0_l in Hinv. destruct Hinv as (?&?&?&?&?&?&?&?).
  simpl in Htotal, Hnd, Hmem.
  rewrite Htotal.
  repeat split; try lia.
  - apply Hnd. constructor.
  - intros Hf. apply Hmem in Hf as [[]%elem_of_nil|Hf]. exact Hf.
  - intros Hf. apply Hmem. by right.
Qed.

(** ** The title block *)

Section TitleBlock.

Import Core Spec.

Lemma split_from_nil word s :
  Py.split_from word s = [] ↔ word = "" ∧ all_space s = true.
Proof.
  revert word. induction s as [|c s IH]; intros word; simpl.
  - destruct word; naive_solver.
  - destruct (Py.isspace c); simpl.
    + destruct word as [|d word].
      * rewrite IH. naive_solver.
      * naive_solver.
    + rewrite IH. naive_solver.
Qed.

Lemma split_nil s : Py.split s = [] ↔ all_space s = true.
Proof. unfold Py.split. rewrite split_from_nil. naive_solver. Qed.

Lemma all_space_empty_or s :
  all_space s = true → s = "" ∨ (s ≠ "" ∧ all_space s = true).
Proof. destruct s; [by left|]. right. by split. Qed.

Variable istitle : string → bool.

Lemma brand_position_of_error text :
  brand_position_of istitle text = inl IndexError
  ↔ text ≠ "" ∧ all_space text = true.
Proof.
  unfold brand_position_of, last_word.
  destruct text as [|c text]; [naive_solver|].
  destruct (last (Py.split (String c text))) as [w|] eqn:Hlast.
  - split; [done|]. intros [_ Hspace%split_nil].
    rewrite Hspace in Hlast. done.
  - apply last_None, split_nil in Hlast. naive_solver.
Qed.

Lemma brand_position_of_value text brand :
  brand_position_of istitle text = inr brand →
  (brand = "end" ∨ brand = "unknown") ∧ (text = "" ∨ Py.split text ≠ []).
Proof.
  unfold brand_position_of, last_word.
  destruct text as [|c text]; [naive_solver|].
  destruct (last (Py.split (String c text))) as [w|] eqn:Hlast; [|done].
  intros [= <-]. split.
  - destruct (istitle w); auto.
  - right. intros Hnil. rewrite Hnil in Hlast. done.
Qed.

End TitleBlock.

(** X8. The title block raises [IndexError] exactly when the document has a
    title whose text is not empty and is all whitespace.  It reports the
    title as missing exactly when there is no [title] element.  Otherwise
    it returns, with [optimal] set exactly for a length between 30 and 60,
    a word count that is 0 only for an empty title, and a brand position of
    [end] or [unknown]. *)
Theorem seo_title_outcome (istitle : string → bool) (soup : node) :
  (Core.seo_title istitle soup = inl Core.IndexError
   ↔ ∃ title,
       head (find_all_named soup "title") = Some title
       ∧ Spec.string_or_empty title ≠ ""
       ∧ Spec.all_space (Spec.string_or_empty title) = true)
  ∧ (Core.seo_title istitle soup = inr None
     ↔ find_all_named soup "title" = [])
  ∧ (∀ info,
       Core.seo_title istitle soup = inr (Some info) →
       Core.title_length info = Py.len (Core.title_text info)
       ∧ (Core.title_optimal info = true
          ↔ 30 ≤ Core.title_length info ≤ 60)
       ∧ 0 ≤ Core.title_words info
       ∧ (Core.title_words info = 0 ↔ Core.title_text info = "")
       ∧ (Core.brand_position info = "end"
          ∨ Core.brand_position info = "unknown")).
Proof.
  unfold Core.seo_title, Spec.string_or_empty.
  destruct (find_all_named soup "title") as [|title rest] eqn:Htitles;
    cbv beta iota delta [hd_error].
  { split; [|split]; [split; [done|by intros (? & ? & _)] | done | done]. }
  set (text := Py.or_else (Core.string_of title) "").
  pose proof (brand_position_of_error istitle text) as Herr.
  pose proof (brand_position_of_value istitle text) as Hval.
  destruct (Core.brand_position_of istitle text) as [[]|brand] eqn:Hbrand;
    cbv beta iota.
  - split; [|split; [split; done|done]].
    split; [|done]. intros _. exists title. split; [done|].
    by apply Herr.
  - split; [|split; [split; done|]].
    + split; [done|]. intros (t & [= <-] & Hne & Hspace).
      assert (@inr Core.sequence_error string brand = inl Core.IndexError)
        as Habs by (by apply Herr). done.
    + intros info [= <-]. simpl.
      destruct (Hval brand eq_refl) as [Hb Hwords].
      split; [done|]. split; [|split; [lia|split; [|exact Hb]]].
      * rewrite andb_true_iff, !Z.leb_le. done.
      * split.
        -- intros Hlen. destruct Hwords as [?|Hne]; [done|].
           destruct (Py.split text); [done|]. simpl in Hlen. lia.
        -- by intros ->.
Qed.

(** ** ID analysis, continued *)

Section IdInvariants.

Import Comprehensive Spec.

Lemma incr_init_lookup k v (d : gmap string Z) j :
  incr_key k (init_key k v d) !! j
  = if decide (k = j) then Some (default v (d !! k) + 1) else d !! j.
Proof.
  unfold incr_key, init_key. rewrite lookup_alter.
  destruct (decide (k = j)) as [<-|Hne].
  - destruct (d !! k) as [n|] eqn:Hk; simpl.
    + by rewrite Hk.
    + by rewrite lookup_insert_eq.
  - destruct (d !! k) as [n|] eqn:Hk; [done|].
    by rewrite lookup_insert_ne.
Qed.

Lemma incr_init_dom k v (d : gmap string Z) :
  dom (incr_key k (init_key k v d)) = {[k]} ∪ dom d.
Proof.
  apply set_eq. intros j.
  rewrite elem_of_union, elem_of_singleton, !elem_of_dom, incr_init_lookup.
  destruct (decide (k = j)) as [<-|Hne]; naive_solver.
Qed.

Lemma id_invariant_init : id_invariant id_analysis_init.
Proof.
  unfold id_invariant, id_analysis_init.
  cbn [unique_ids id_usage duplicate_ids id_length_stats elements_with_ids].
  split; [by rewrite dom_empty_L|].
  split; [intros k n; by rewrite lookup_empty|].
  split; [intros k; by rewrite !lookup_empty|].
  split; [done|]. rewrite size_empty. done.
Qed.

Lemma record_id_invariant st k :
  id_invariant st → id_invariant (record_id st k).
Proof.
  intros (Hdom & Hpos & Hdup & Hlen & Hsize).
  unfold id_invariant, record_id. simpl.
  assert (k ∈ unique_ids st ↔ is_Some (id_usage st !! k)) as Hseen
    by (rewrite Hdom; apply elem_of_dom).
  split; [|split; [|split; [|split]]].
  - rewrite incr_init_dom, <- Hdom.
    case_bool_decide; [set_solver|done].
  - intros j n. rewrite incr_init_lookup.
    destruct (decide (k = j)) as [<-|Hne]; [|apply Hpos].
    intros [= <-]. destruct (id_usage st !! k) as [m|] eqn:Hk; simpl.
    + specialize (Hpos k m Hk). lia.
    + lia.
  - intros j. rewrite incr_init_lookup.
    case_bool_decide as Hin.
    + apply Hseen in Hin as [m Hk].
      rewrite incr_init_lookup, Hdup.
      destruct (decide (k = j)) as [<-|Hne]; [|done].
      rewrite Hk. simpl. specialize (Hpos k m Hk).
      destruct (2 <=? m) eqn:Hm; simpl.
      * apply Z.leb_le in Hm.
        rewrite (proj2 (Z.leb_le 2 (m + 1))) by lia. done.
      * apply Z.leb_gt in Hm. assert (m = 1) as -> by lia. done.
    + assert (id_usage st !! k = None) as Hk.
      { apply eq_None_not_Some. by rewrite <- Hseen. }
      rewrite Hdup. destruct (decide (k = j)) as [<-|Hne]; [|done].
      rewrite Hk. done.
  - rewrite length_app. simpl. lia.
  - case_bool_decide as Hin; [lia|].
    rewrite size_union by set_solver. rewrite size_singleton. lia.
Qed.

Lemma record_loop_invariant ids st :
  id_invariant st →
  let r := fold_left record_id ids st in
  id_invariant r
  ∧ unique_ids r = list_to_set ids ∪ unique_ids st
  ∧ elements_with_ids r = elements_with_ids st + Z.of_nat (length ids).
Proof.
  revert st. induction ids as [|k ids IH]; intros st Hinv; cbv zeta.
  - simpl. split; [done|]. split; [set_solver|lia].
  - destruct (IH (record_id st k) (record_id_invariant st k Hinv))
      as (Hinv' & Hu & Hw).
    simpl. split; [done|]. rewrite Hu, Hw.
    unfold record_id.
    cbn [unique_ids elements_with_ids length].
    split; [case_bool_decide; set_solver|lia].
Qed.

Lemma id_loop_counts elements st :
  let r := fold_left id_step elements st in
  elements_with_ids r + elements_without_ids r
  = elements_with_ids st + elements_without_ids st
    + Z.of_nat (length elements).
Proof.
  revert st. induction elements as [|e elements IH]; intros st; cbv zeta.
  - simpl. lia.
  - simpl. rewrite IH. unfold id_step, record_id, record_no_id.
    destruct (truthy_id e); simpl; lia.
Qed.

Lemma truthy_id_spec e k :
  truthy_id e = Some k ↔ get e "id" = Some k ∧ k ≠ "".
Proof.
  unfold truthy_id. destruct (get e "id") as [[|c rest]|]; naive_solver.
Qed.

Lemma analyze_ids_bookkeeping self :
  same_ids (analyze_ids_comprehensive self)
    (fold_left record_id (omap truthy_id (all_elements self))
       id_analysis_init).
Proof.
  unfold analyze_ids_comprehensive, all_elements.
  destruct (soup self) as [soup|]; [|apply same_ids_refl].
  apply id_loop_same, same_ids_refl.
Qed.

End IdInvariants.

(** X10. ID analysis accounts for every element once, with or without an
    id; it keeps one length per element with an id; [unique_ids] is the
    set of keys of [id_usage], every usage count is at least 1, and
    [duplicate_ids] holds exactly the ids used twice or more, each with its
    usage count. *)
Theorem id_analysis_invariants (self : Comprehensive.analyzer) :
  let r := Comprehensive.analyze_ids_comprehensive self in
  Comprehensive.elements_with_ids r + Comprehensive.elements_without_ids r
  = Z.of_nat (length (Spec.all_elements self))
  ∧ Z.of_nat (length (Comprehensive.id_length_stats r))
    = Comprehensive.elements_with_ids r
  ∧ Comprehensive.unique_ids r = dom (Comprehensive.id_usage r)
  ∧ (∀ k n, Comprehensive.id_usage r !! k = Some n → 1 ≤ n)
  ∧ (∀ k n, Comprehensive.duplicate_ids r !! k = Some n
            ↔ Comprehensive.id_usage r !! k = Some n ∧ 2 ≤ n)
  ∧ Z.of_nat (size (Comprehensive.unique_ids r))
    ≤ Comprehensive.elements_with_ids r.
Proof.
  intros r.
  destruct (analyze_ids_bookkeeping self) as (Hu & Hd & Hq & Hw & Hl).
  fold r in Hu, Hd, Hq, Hw, Hl.
  destruct (record_loop_invariant
              (omap Comprehensive.truthy_id (Spec.all_elements self))
              Comprehensive.id_analysis_init id_invariant_init)
    as ((Hdom & Hpos & Hdup & Hlen & Hsize) & _ & _).
  rewrite <- Hu, <- Hd, <- Hq, <- Hw, <- Hl in *.
  split; [|split; [exact Hlen|split; [exact Hdom|split; [exact Hpos|split]]]].
  - subst r. unfold Comprehensive.analyze_ids_comprehensive, Spec.all_elements.
    destruct (Comprehensive.soup self) as [soup|]; [|done].
    rewrite id_loop_counts. simpl. lia.
  - intros k n. rewrite Hdup.
    destruct (Comprehensive.id_usage r !! k) as [m|]; [|naive_solver].
    destruct (2 <=? m) eqn:Hm.
    + apply Z.leb_le in Hm. naive_solver.
    + apply Z.leb_gt in Hm. split; [done|]. intros [[= ->] ?]. lia.
  - exact Hsize.
Qed.

(** X7. The ids the comprehensive analyzer calls unique are the ids the
    CSS analyzer collects, without the empty id: the comprehensive analyzer
    skips an [id] attribute that is empty, the CSS analyzer counts it.  The
    two counts agree exactly on documents without an empty [id]. *)
Theorem unique_ids_of_both_analyzers
    (self : Comprehensive.analyzer) (soup : node) :
  Comprehensive.soup self = Some soup →
  let r := Comprehensive.analyze_ids_comprehensive self in
  let css := Core.analyze_css_selectors soup in
  Comprehensive.unique_ids r = Core.id_selectors soup ∖ {[""]}
  ∧ Z.of_nat (size (Comprehensive.unique_ids r)) ≤ Core.unique_ids css
  ∧ (Z.of_nat (size (Comprehensive.unique_ids r)) = Core.unique_ids css
     ↔ "" ∉ Core.id_selectors soup).
Proof.
  intros Hsoup r css.
  destruct (analyze_ids_bookkeeping self) as (_ & _ & Hq & _ & _).
  fold r in Hq.
  destruct (record_loop_invariant
              (omap Comprehensive.truthy_id (Spec.all_elements self))
              Comprehensive.id_analysis_init id_invariant_init)
    as (_ & Hset & _).
  rewrite <- Hq in Hset. simpl in Hset. rewrite union_empty_r_L in Hset.
  unfold Spec.all_elements in Hset. rewrite Hsoup in Hset.
  assert (Comprehensive.unique_ids r = Core.id_selectors soup ∖ {[""]})
    as Heq.
  { rewrite Hset. unfold Core.id_selectors. apply set_eq. intros k.
    rewrite elem_of_difference, !elem_of_list_to_set, !list_elem_of_omap,
      elem_of_singleton.
    split.
    - intros (e & He & Hk%truthy_id_spec). naive_solver.
    - intros [(e & He & Hk) Hne]. exists e. split; [done|].
      by apply truthy_id_spec. }
  split; [exact Heq|].
  subst css. unfold Core.analyze_css_selectors. simpl.
  rewrite Heq.
  destruct (decide ("" ∈ Core.id_selectors soup)) as [Hin|Hnin].
  - assert (Core.id_selectors soup
            = {[""]} ∪ (Core.id_selectors soup ∖ {[""]})) as Hsplit.
    { apply set_eq. intros k.
      rewrite elem_of_union, elem_of_difference, elem_of_singleton.
      destruct (decide (k = "")) as [->|]; naive_solver. }
    pose proof (size_union ({[""]} : gset string)
                  (Core.id_selectors soup ∖ {[""]}) ltac:(set_solver)) as Hsz.
    rewrite <- Hsplit, size_singleton in Hsz.
    split; [lia|]. split; [lia|]. done.
  - assert (Core.id_selectors soup ∖ {[""]} = Core.id_selectors soup) as ->
      by set_solver.
    split; [lia|]. done.
Qed.

Lemma unique_ids_of_both_analyzers_witness :
  let soup :=
    Tag "[document]" ∅
      [Tag "div" {[ "id" := "main" ]} [Tag "p" {[ "id" := "" ]} []]] in
  let self := Spec.analyzer_of soup in
  Comprehensive.soup self = Some soup
  ∧ Comprehensive.unique_ids (Comprehensive.analyze_ids_comprehensive self)
    = Core.id_selectors soup ∖ {[""]}.
Proof.
  intros soup self. split; [reflexivity|].
  destruct (unique_ids_of_both_analyzers self soup eq_refl) as [Heq _].
  exact Heq.
Defined.

(** ** Images, continued *)

Section ImageTallies.

Import Spec.



End ImageTallies.




(** ** URL resolution, continued *)

Section Resolution.

Import Comprehensive.

Lemma startswith_two_one s :
  Py.startswith s "//" = true → Py.startswith s "/" = true.
Proof. apply (prefix_app_l "/" "/"). Qed.

Lemma startswith_app_scheme s t :
  Py.startswith s "/" = false →
  Py.startswith (s +:+ "://" +:+ t) "/" = false.
Proof.
  unfold Py.startswith. destruct s as [|c s]; [done|].
  change (String c s +:+ "://" +:+ t) with (String c (s +:+ "://" +:+ t)).
  rewrite !prefix_cons. destruct (ascii_dec "/" c); [|done].
  by rewrite !prefix_empty.
Qed.

Lemma startswith_https_prefixed s :
  Py.startswith ("https:" +:+ s) "/" = false.
Proof. reflexivity. Qed.

Lemma not_two_slashes s :
  Py.startswith s "/" = false → Py.startswith s "//" = false.
Proof.
  intros H. destruct (Py.startswith s "//") eqn:H2; [|done].
  apply startswith_two_one in H2. congruence.
Qed.

Lemma resolve_unchanged self s :
  Py.startswith s "/" = false → link_full_url self s = s.
Proof.
  intros H. unfold link_full_url. by rewrite (not_two_slashes s H), H.
Qed.

Lemma https_prefixed_recorded s :
  Py.startswith s "//" = true → is_recorded ("https:" +:+ s) = true.
Proof.
  intros H. destruct (startswith_two_slashes s H) as [rest ->].
  apply existsb_exists. exists "https://". split; [simpl; auto|].
  vm_compute. destruct rest; reflexivity.
Qed.



End Resolution.

(** X12. Resolving a reference twice gives what resolving it once gives,
    for every page whose scheme does not start with a slash; the link
    analyzer and the network analyzer resolve alike; and on an [http] or
    [https] page every navigable reference resolves to a URL that starts
    with [http://] or [https://]. *)
Theorem link_resolution_idempotent
    (self : Comprehensive.analyzer) (href : string) :
  Py.startswith (Comprehensive.scheme (Comprehensive.parsed self)) "/"
  = false →
  Comprehensive.link_full_url self (Comprehensive.link_full_url self href)
  = Comprehensive.link_full_url self href
  ∧ Comprehensive.clean_url self href
    = Comprehensive.link_full_url self href
  ∧ (Comprehensive.is_navigable href = true →
     Comprehensive.scheme (Comprehensive.parsed self) = "http"
     ∨ Comprehensive.scheme (Comprehensive.parsed self) = "https" →
     Comprehensive.is_recorded (Comprehensive.link_full_url self href)
     = true).
Proof.
  intros Hscheme. split; [|split; [reflexivity|]].
  - destruct (Py.startswith href "//") eqn:H2.
    + assert (Comprehensive.link_full_url self href = "https:" +:+ href)
        as -> by (unfold Comprehensive.link_full_url; by rewrite H2).
      apply resolve_unchanged, startswith_https_prefixed.
    + destruct (Py.startswith href "/") eqn:H1.
      * assert (Comprehensive.link_full_url self href
                = Comprehensive.scheme (Comprehensive.parsed self)
                  +:+ "://"
                  +:+ Comprehensive.netloc (Comprehensive.parsed self)
                  +:+ href)
          as -> by (unfold Comprehensive.link_full_url; by rewrite H2, H1).
        apply resolve_unchanged, startswith_app_scheme, Hscheme.
      * rewrite !(resolve_unchanged self href H1). done.
  - intros Hnav Hweb. unfold Comprehensive.link_full_url.
    destruct (Py.startswith href "//") eqn:H2;
      [by apply https_prefixed_recorded|].
    destruct (Py.startswith href "/") eqn:H1.
    + apply existsb_exists.
      destruct Hweb as [-> | ->].
      * exists "http://". split; [simpl; auto|].
        unfold Py.startswith.
        change ("http" +:+ "://" +:+ ?t) with ("http://" +:+ t).
        generalize (Comprehensive.netloc (Comprehensive.parsed self)
                    +:+ href). intros t. vm_compute. by destruct t.
      * exists "https://". split; [simpl; auto|].
        unfold Py.startswith.
        generalize (Comprehensive.netloc (Comprehensive.parsed self)
                    +:+ href). intros t. vm_compute. by destruct t.
    + unfold Comprehensive.is_navigable in Hnav.
      apply existsb_exists in Hnav as (p & Hp & Hstart).
      apply existsb_exists.
      repeat (apply in_inv in Hp as [<-|Hp]); try congruence.
      * exists "http://". split; [simpl; auto|done].
      * exists "https://". split; [simpl; auto|done].
      * destruct Hp.
Qed.

Lemma link_resolution_idempotent_witness :
  let self := Spec.analyzer_of Spec.bare_html in
  Py.startswith (Comprehensive.scheme (Comprehensive.parsed self)) "/" = false
  ∧ Comprehensive.link_full_url self
      (Comprehensive.link_full_url self "/a/b")
    = Comprehensive.link_full_url self "/a/b".
Proof.
  intros self. split; [reflexivity|].
  exact (proj1 (link_resolution_idempotent self "/a/b" eq_refl)).
Defined.

(** ** Network resources *)

Section Network.

Import Comprehensive.




End Network.


(** ** Elements by tag *)

Section Tags.

Import Comprehensive.

Lemma tag_loop elements a t :
  t ≠ "" →
  unique_tags a = dom (elements_by_tag a) →
  let r := fold_left tag_step elements a in
  default 0 (elements_by_tag r !! t)
  = default 0 (elements_by_tag a !! t)
    + Z.of_nat (length (filter (fun e => tag_name e = t) elements))
  ∧ unique_tags r = dom (elements_by_tag r)
  ∧ total_elements r = total_elements a.
Proof.
  intros Ht. revert a.
  induction elements as [|e elements IH]; intros a Hdom; cbv zeta.
  - simpl. split; [lia|done].
  - assert (unique_tags (tag_step a e) = dom (elements_by_tag (tag_step a e))
            ∧ total_elements (tag_step a e) = total_elements a
            ∧ default 0 (elements_by_tag (tag_step a e) !! t)
              = default 0 (elements_by_tag a !! t)
                + if decide (tag_name e = t) then 1 else 0)
      as (Hdom' & Htotal & Hstep).
    { unfold tag_step. destruct (tag_name e) as [|c name] eqn:Hname.
      - split; [done|]. split; [done|].
        destruct (decide ("" = t)); [congruence|lia].
      - cbn [unique_tags elements_by_tag total_elements].
        rewrite incr_init_dom, incr_init_lookup, Hdom.
        split; [done|]. split; [done|].
        destruct (decide (String c name = t)); simpl; [|lia].
        subst t. lia. }
    destruct (IH (tag_step a e) Hdom') as (Hcount & Hd & Htot).
    simpl. rewrite Hcount, Hstep, Htot, Htotal, filter_cons.
    split; [|done].
    destruct (decide (tag_name e = t)); simpl length; lia.
Qed.

End Tags.

(** X15. The per-tag counts of the element analyzer are the numbers of
    elements with each name: what [find_all(name)] would return, and so
    what the other analyzers count.  The unique tags are the keys of the
    per-tag counts. *)
Theorem elements_by_tag_counts
    (self : Comprehensive.analyzer) (soup : node) (t : string) :
  Comprehensive.soup self = Some soup →
  t ≠ "" →
  let r := Comprehensive.analyze_every_element self in
  default 0 (Comprehensive.elements_by_tag r !! t)
  = Z.of_nat (length (find_all_named soup t))
  ∧ Comprehensive.unique_tags r = dom (Comprehensive.elements_by_tag r)
  ∧ Comprehensive.total_elements r = Z.of_nat (length (find_all soup))
  ∧ (t = "script" →
     default 0 (Comprehensive.elements_by_tag r !! t)
     = Core.total_scripts (Core.analyze_javascript_complexity soup))
  ∧ (t = "img" →
     default 0 (Comprehensive.elements_by_tag r !! t)
     = Core.total_images (Core.accessibility_alternative_text soup)).
Proof.
  intros Hsoup Ht r. subst r.
  unfold Comprehensive.analyze_every_element. rewrite Hsoup.
  edestruct (tag_loop (find_all soup)) as (Hcount & Hdom & Htotal);
    [exact Ht| |].
  2:{ rewrite Hcount, Hdom, Htotal. simpl. rewrite lookup_empty. simpl.
      split; [done|]. split; [done|]. split; [done|]. split.
      - intros ->. unfold Core.analyze_javascript_complexity.
        by rewrite script_loop_total.
      - intros ->. done. }
  simpl. by rewrite dom_empty_L.
Qed.

Lemma elements_by_tag_counts_witness :
  let self := Spec.analyzer_of Spec.sample_soup in
  Comprehensive.soup self = Some Spec.sample_soup
  ∧ "h1" ≠ ""
  ∧ default 0
      (Comprehensive.elements_by_tag
         (Comprehensive.analyze_every_element self) !! "h1")
    = Z.of_nat (length (find_all_named Spec.sample_soup "h1")).
Proof.
  intros self. split; [reflexivity|]. split; [discriminate|].
  exact (proj1 (elements_by_tag_counts self Spec.sample_soup "h1"
                  eq_refl ltac:(discriminate))).
Defined.

(** ** Performance hints *)

Section Performance.

Import Core Spec.

(** A string that contains [a ++ b] contains [b]. *)
Lemma contains_app_r a b s :
  Py.contains (a +:+ b) s = true → Py.contains b s = true.
Proof.
  assert (∀ a s, String.prefix (a +:+ b) s = true → Py.contains b s = true)
    as Hprefix.
  { clear. induction a as [|c a IH]; intros s Hp.
    - rewrite contains_unfold.
      change ("" +:+ b) with b in Hp. by rewrite Hp.
    - destruct s as [|d s]; [done|].
      change (String c a +:+ b) with (String c (a +:+ b)) in Hp.
      rewrite prefix_cons in Hp. destruct (ascii_dec c d); [|done].
      rewrite contains_unfold, (IH s Hp).
      by destruct (String.prefix b _). }
  induction s as [|c s IH]; rewrite (contains_unfold (a +:+ b)).
  - destruct (String.prefix (a +:+ b) "") eqn:Hp; [|done].
    intros _. by apply Hprefix in Hp.
  - destruct (String.prefix (a +:+ b) (String c s)) eqn:Hp.
    + intros _. by apply Hprefix in Hp.
    + intros H. rewrite contains_unfold, (IH H).
      by destruct (String.prefix b _).
Qed.

Lemma format_loop images (formats : gmap string Z) f :
  default 0 (fold_left count_format images formats !! f)
  = default 0 (formats !! f)
    + count_if (fun e => bool_decide (format_of e = Some f)) images.
Proof.
  revert formats. induction images as [|e images IH]; intros formats.
  - simpl. unfold count_if. simpl. lia.
  - simpl. rewrite IH, count_if_cons. unfold count_format, format_of.
    destruct (image_format (image_source e)) as [g|]; [|simpl; lia].
    destruct (decide (g = f)) as [->|Hne].
    + rewrite lookup_insert_eq, bool_decide_eq_true_2 by done. simpl. lia.
    + rewrite lookup_insert_ne by done.
      rewrite bool_decide_eq_false_2 by congruence. lia.
Qed.

Lemma image_format_names src f :
  image_format src = Some f →
  f ∈ ["webp"; "avif"; "jpeg"; "png"; "svg"; "gif"].
Proof.
  unfold image_format. repeat case_match; intros [= <-]; set_solver.
Qed.

End Performance.

(** X16. The image formats of the performance analyzer: every [img] or
    [source] element is filed under at most one format, the first that
    matches in the order webp, avif, jpeg, png, svg, gif, so that the count
    of a format is the number of elements filed under it and a source that
    contains [.webp] counts as webp whatever else it contains.  The service
    worker flag is set exactly when some script contains
    [serviceWorker]. *)
Theorem performance_formats (soup : node) :
  let p := Core.analyze_performance_metrics soup in
  let images := Core.find_all_among soup ["img"; "source"] in
  (∀ f, default 0 (Core.formats p !! f)
        = count_if (fun e => bool_decide (Spec.format_of e = Some f)) images)
  ∧ (∀ f, is_Some (Core.formats p !! f) →
          f ∈ ["webp"; "avif"; "jpeg"; "png"; "svg"; "gif"])
  ∧ (∀ e, Py.contains ".webp" (Core.image_source e) = true →
          Spec.format_of e = Some "webp")
  ∧ (Core.service_worker p = true
     ↔ ∃ script, script ∈ find_all_named soup "script"
                 ∧ Py.contains "serviceWorker" (Spec.string_or_empty script)
                   = true).
Proof.
  intros p images. subst p. unfold Core.analyze_performance_metrics.
  cbn [Core.formats Core.service_worker]. fold images.
  split; [|split; [|split]].
  - intros f. rewrite format_loop, lookup_empty. simpl. lia.
  - intros f Hsome.
    assert (∀ l (m : gmap string Z),
              is_Some (fold_left Core.count_format l m !! f) →
              is_Some (m !! f)
              ∨ f ∈ ["webp"; "avif"; "jpeg"; "png"; "svg"; "gif"]) as Hkeys.
    { clear. induction l as [|e l IH]; intros m Hf; [by left|].
      simpl in Hf. apply IH in Hf as [Hf|?]; [|by right].
      unfold Core.count_format in Hf.
      destruct (Core.image_format (Core.image_source e)) as [g|] eqn:Hg;
        [|by left].
      destruct (decide (g = f)) as [->|Hne].
      - right. by apply image_format_names in Hg.
      - rewrite lookup_insert_ne in Hf by done. by left. }
    apply Hkeys in Hsome as [Hempty|?]; [|done].
    rewrite lookup_empty in Hempty. by destruct Hempty.
  - intros e He. unfold Spec.format_of, Core.image_format. by rewrite He.
  - rewrite existsb_exists. unfold Spec.string_or_empty. split.
    + intros (script & Hin & Hc). exists script.
      split; [by apply list_elem_of_In|].
      apply orb_true_iff in Hc as [Hc|Hc]; [done|].
      by apply (contains_app_r "navigator." "serviceWorker").
    + intros (script & Hin & Hc). exists script.
      split; [by apply list_elem_of_In|]. by rewrite Hc.
Qed.

(** ** Keyboard navigation and Schema.org, continued *)

(** X17. The keyboard-navigation pass returns for every document, and its
    [positive_tabindex] never exceeds [tabindex_elements]: it counts some of
    the elements that have a [tabindex] attribute. *)
Theorem positive_tabindex_bounded (soup : node) :
  ∃ k, Core.accessibility_keyboard_nav soup = Ok k
       ∧ Core.tabindex_elements k
         = Z.of_nat (length (find_all_with_attr soup "tabindex"))
       ∧ 0 ≤ Core.positive_tabindex k ≤ Core.tabindex_elements k
       ∧ 0 ≤ Core.accesskey_elements k.
Proof.
  unfold Core.accessibility_keyboard_nav.
  rewrite (for_each_Ok _
             (fun n elem =>
                n + if Spec.counts_as_positive elem then 1 else 0))
    by apply positive_tabindex_step_Ok.
  eexists. split; [reflexivity|]. simpl.
  rewrite fold_left_count.
  pose proof (count_if_split Spec.counts_as_positive
                (find_all_with_attr soup "tabindex")).
  pose proof (count_if_nonneg Spec.counts_as_positive
                (find_all_with_attr soup "tabindex")).
  pose proof (count_if_nonneg
                (fun x => negb (Spec.counts_as_positive x))
                (find_all_with_attr soup "tabindex")).
  repeat split; lia.
Qed.

(** X18. The Schema.org pass returns exactly when no JSON-LD block lets an
    exception through, that is, when the decoder raises nothing but
    [JSONDecodeError] or [TypeError] on the blocks of the page.  Whenever
    it returns, it has collected the entries of the blocks in document
    order, no more types than there are blocks, and every type is the
    [@type] entry of a block that decodes to a mapping.  A block on which
    the decoder raises [JSONDecodeError] leaves the types as they are. *)
Theorem schema_types_bounded
    (json_loads : string → result value) (soup : node) :
  ((∃ r, Core.seo_schema_org json_loads soup = Ok r)
   ↔ Forall (fun script => Spec.uncaught json_loads script = None)
       (Core.json_ld_scripts soup))
  ∧ (∀ r, Core.seo_schema_org json_loads soup = Ok r →
          Core.json_ld_count r
          = Z.of_nat (length (Core.json_ld_scripts soup))
          ∧ Core.types r
            = flat_map (Spec.schema_entry json_loads)
                (Core.json_ld_scripts soup)
          ∧ Z.of_nat (length (Core.types r)) ≤ Core.json_ld_count r
          ∧ ∀ ty, ty ∈ Core.types r →
                  ∃ script text items,
                    script ∈ Core.json_ld_scripts soup
                    ∧ Core.string_of script = Some text
                    ∧ json_loads text = Ok (VDict items)
                    ∧ Core.assoc "@type" items = Some ty)
  ∧ (∀ schema_types script text,
       Core.string_of script = Some text →
       json_loads text = Raise JSONDecodeError →
       Core.schema_types_step json_loads schema_types script
       = Ok schema_types).
Proof.
  assert (∀ r, Core.seo_schema_org json_loads soup = Ok r
               ↔ Forall (fun script =>
                           Spec.uncaught json_loads script = None)
                   (Core.json_ld_scripts soup)
                 ∧ r = {| Core.json_ld_count :=
                            Z.of_nat (length (Core.json_ld_scripts soup));
                          Core.types :=
                            flat_map (Spec.schema_entry json_loads)
                              (Core.json_ld_scripts soup) |}) as Hpass.
  { intros r. unfold Core.seo_schema_org.
    destruct (for_each (Core.json_ld_scripts soup)
                (Core.schema_types_step json_loads) [])
      as [schema_types|e] eqn:Hloop; simpl.
    - apply schema_loop_returns in Hloop as [Hall ->]. simpl.
      split; [intros [= <-]; by split | intros [_ ->]; done].
    - split; [done|]. intros [Hall _]. exfalso.
      pose proof (proj2 (schema_loop_returns json_loads
                           (Core.json_ld_scripts soup) [] _)
                    (conj Hall eq_refl)) as Hreturns.
      congruence. }
  split; [|split].
  - split.
    + intros [r Hr]. by apply Hpass in Hr as [Hall _].
    + intros Hall. eexists. apply Hpass. by split.
  - intros r Hr. apply Hpass in Hr as [_ ->]. simpl.
    split; [done|]. split; [done|]. split.
    + pose proof (length_schema_entries json_loads
                    (Core.json_ld_scripts soup)). lia.
    + intros ty Hty. apply list_elem_of_In, in_flat_map in Hty
        as (script & Hscript & Hentry).
      exists script. unfold Spec.schema_entry in Hentry.
      destruct (Core.string_of script) as [[|c s']|] eqn:Hstring;
        try by destruct Hentry.
      destruct (json_loads (String c s')) as [[]|] eqn:Hloads;
        try by destruct Hentry.
      destruct (Core.assoc "@type" items) as [ty'|] eqn:Hassoc;
        [|by destruct Hentry].
      destruct Hentry as [<-|[]].
      exists (String c s'), items.
      split; [by apply list_elem_of_In|]. done.
  - intros schema_types script text Hstring Hloads.
    rewrite schema_types_step_eq.
    unfold Spec.uncaught, Spec.schema_entry. rewrite Hstring.
    destruct text as [|c s']; [by rewrite app_nil_r|].
    rewrite Hloads. simpl. by rewrite app_nil_r.
Qed.

Lemma schema_types_bounded_witness :
  Core.seo_schema_org Spec.sample_decoder Spec.article_page
  = Ok {| Core.json_ld_count := 2; Core.types := [VStr "Article"] |}
  ∧ Z.of_nat (length [VStr "Article"]) ≤ 2
  ∧ Core.schema_types_step Spec.sample_decoder []
      (Tag "script" ∅ [Text "{oops"])
    = Ok [].
Proof.
  assert (Core.seo_schema_org Spec.sample_decoder Spec.article_page
          = Ok {| Core.json_ld_count := 2;
                  Core.types := [VStr "Article"] |}) as Hpass
    by (vm_compute; reflexivity).
  destruct (schema_types_bounded Spec.sample_decoder Spec.article_page)
    as (_ & Hresult & Hskip).
  split; [exact Hpass|]. split.
  - exact (proj1 (proj2 (proj2 (Hresult _ Hpass)))).
  - apply (Hskip [] _ "{oops"); vm_compute; reflexivity.
Defined.

(** X20. The keyboard-navigation loop lets no exception through: one turn
    adds 1 for an element whose [tabindex] reads as an integer above 0 and
    leaves the count as it is otherwise, also where [int] raises; so
    [positive_tabindex] is the number of elements whose [tabindex] reads
    as an integer above 0. *)
Theorem positive_tabindex_counts (soup : node) :
  (∀ positive elem,
     Core.positive_tabindex_step positive elem
     = Ok match get elem "tabindex" with
          | Some v =>
              match Py.int v with
              | Ok t => if 0 <? t then positive + 1 else positive
              | Raise _ => positive
              end
          | None => positive
          end)
  ∧ ∃ k, Core.accessibility_keyboard_nav soup = Ok k
         ∧ Core.positive_tabindex k
           = count_if Spec.counts_as_positive
               (find_all_with_attr soup "tabindex").
Proof.
  split.
  - intros positive elem. rewrite positive_tabindex_step_Ok.
    unfold Spec.counts_as_positive, Core.int_tabindex.
    destruct (get elem "tabindex") as [v|]; [|simpl; f_equal; lia].
    destruct (Py.int v) as [t|e]; [|f_equal; lia].
    destruct (0 <? t); f_equal; lia.
  - unfold Core.accessibility_keyboard_nav.
    rewrite (for_each_Ok _
               (fun n elem =>
                  n + if Spec.counts_as_positive elem then 1 else 0))
      by apply positive_tabindex_step_Ok.
    eexists. split; [reflexivity|]. simpl.
    rewrite fold_left_count. lia.
Qed.

(** ** The aggregator, continued *)

Section CoreSections.

Import Core Spec.

Variable url : string.
Variable fetch_single_user_agent : string → option response_data.
Variables start_time end_time : float.
Variable timestamp : string.
Variable fuel : nat.
Variables analyze_css_selectors analyze_javascript_complexity
  analyze_seo_signals analyze_accessibility_advanced : node → result value.
Variable analyze_performance_metrics : node → response_data → result value.

Let generate :=
  generate_comprehensive_analysis url fetch_single_user_agent
    start_time end_time timestamp fuel
    analyze_css_selectors analyze_javascript_complexity
    analyze_seo_signals analyze_accessibility_advanced
    analyze_performance_metrics.

(** X19. A merged result of the Core entry point has eleven top-level
    keys, in a fixed order, and reports 8 analysis categories: the seven
    analyzers and [fetch_info].  An exception of an analyzer is not
    caught: when the SEO analyzer raises after the earlier analyzers have
    returned, the entry point raises the same exception and returns
    nothing. *)
Theorem core_result_sections user_agent response :
  fetch_single_user_agent user_agent = Some response →
  (∀ result,
     generate user_agent = Ok result →
     ∃ merged meta,
       result = VDict merged
       ∧ merged.*1
         = ["url"; "user_agent_used"; "fetch_info"; "dom_complexity";
            "css_analysis"; "javascript_analysis"; "performance_metrics";
            "seo_signals"; "accessibility"; "security"; "meta_statistics"]
       ∧ assoc "meta_statistics" merged = Some (VDict meta)
       ∧ meta.*1 = ["total_data_points"; "analysis_categories";
                    "processing_time"; "timestamp"]
       ∧ assoc "analysis_categories" meta = Some (VInt 8)
       ∧ assoc "url" merged = Some (VStr url)
       ∧ assoc "user_agent_used" merged = Some (VStr user_agent))
  ∧ (∀ dom css js perf e,
       calculate_dom_complexity fuel (soup response) = Ok dom →
       analyze_css_selectors (soup response) = Ok css →
       analyze_javascript_complexity (soup response) = Ok js →
       analyze_performance_metrics (soup response) response = Ok perf →
       analyze_seo_signals (soup response) = Raise e →
       generate user_agent = Raise e).
Proof.
  intros Hfetch. split.
  - intros result. unfold generate, generate_comprehensive_analysis.
    rewrite Hfetch.
    destruct (calculate_dom_complexity fuel (soup response)); [|done].
    destruct (analyze_css_selectors (soup response)); [|done].
    destruct (analyze_javascript_complexity (soup response)); [|done].
    destruct (analyze_performance_metrics (soup response) response);
      [|done].
    destruct (analyze_seo_signals (soup response)); [|done].
    destruct (analyze_accessibility_advanced (soup response)); [|done].
    unfold mbind, result_bind. cbv beta iota zeta.
    intros H.
    apply (f_equal (fun r => match r with Ok v => v | Raise _ => VNone end))
      in H.
    cbv beta iota in H. subst result.
    eexists _, _. split; [reflexivity|]. repeat split; reflexivity.
  - intros dom css js perf e Hdom Hcss Hjs Hperf Hseo.
    unfold generate, generate_comprehensive_analysis.
    rewrite Hfetch, Hdom, Hcss, Hjs, Hperf, Hseo. reflexivity.
Qed.

End CoreSections.

Lemma core_result_sections_witness :
  let fetch := fun _ : string => Some Spec.sample_response in
  fetch "desktop_chrome" = Some Spec.sample_response
  ∧ ∀ e,
      Core.generate_comprehensive_analysis "https://example.com" fetch
        1 3 "2024-01-01 00:00:00" 10
        Spec.sample_analyzer Spec.sample_analyzer
        (fun _ => Raise e) Spec.sample_analyzer
        (fun soup _ => Spec.sample_analyzer soup) "desktop_chrome"
      = Raise e.
Proof.
  intros fetch. split; [reflexivity|]. intros e.
  destruct (core_result_sections "https://example.com" fetch
              1 3 "2024-01-01 00:00:00" 10
              Spec.sample_analyzer Spec.sample_analyzer
              (fun _ => Raise e) Spec.sample_analyzer
              (fun soup _ => Spec.sample_analyzer soup)
              "desktop_chrome" Spec.sample_response eq_refl)
    as [_ Hraise].
  destruct (calculate_dom_complexity_returns 10 Spec.sample_soup)
    as [dom Hdom].
  { intros html Hhtml. vm_compute in Hhtml. injection Hhtml as <-.
    vm_compute. lia. }
  exact (Hraise dom _ _ _ e Hdom eq_refl eq_refl eq_refl eq_refl).
Defined.
